(** * travel_bot.py: the planning core of the travel planner

    A shallow embedding of [EnhancedTravelPlannerAI] (the memoised
    component calls, the itinerary date back-fill and the four-way
    aggregator) and of the part of [main] that derives the arguments of
    the core from the submitted form.

    Python values that come out of [json.loads] are modelled by [json];
    a Python [dict] with insertion order is an association list, the
    class-level [_cache] and the [results] dictionary are [gmap]s keyed by
    strings.  The hosted model, [json.loads] and [hashlib.md5] are
    collaborators of the program: the class [Collaborators] holds them,
    and every statement is made for an arbitrary instance. *)

From Stdlib Require Import ZArith Ascii String List Lia.
From stdpp Require Import base tactics option list strings gmap.

Local Open Scope string_scope.
Local Open Scope Z_scope.

(** ** JSON values *)

#[local] Set Warnings "-register-all".

Inductive json : Type :=
| JNull
| JBool (b : bool)
| JNum (n : Z)
| JStr (s : string)
| JList (items : list json)
| JObj (fields : list (string * json)).

(** [d.get(k)] on a dictionary held as an association list. *)
Fixpoint dict_get (k : string) (d : list (string * json)) : option json :=
  match d with
  | [] => None
  | (k', v) :: d' => if decide (k' = k) then Some v else dict_get k d'
  end.

(** [d[k] = v]: an existing key keeps its position, a new key goes last. *)
Fixpoint dict_set (k : string) (v : json) (d : list (string * json))
  : list (string * json) :=
  match d with
  | [] => [(k, v)]
  | (k', v') :: d' =>
      if decide (k' = k) then (k, v) :: d' else (k', v') :: dict_set k v d'
  end.

Definition is_obj (j : json) : bool :=
  match j with JObj _ => true | _ => false end.

(** [sep.join(parts)] *)
Fixpoint join (sep : string) (parts : list string) : string :=
  match parts with
  | [] => ""
  | [p] => p
  | p :: rest => p ++ sep ++ join sep rest
  end.

(** ** The part of [datetime] the program uses

    Follows the pure-Python reference implementation of the [datetime]
    module: proleptic Gregorian ordinals, day 1 being 0001-01-01. *)

Module Calendar.

Record date : Type := Date { year : Z; month : Z; day : Z }.

Definition MINYEAR : Z := 1.
Definition MAXYEAR : Z := 9999.
(** [date.max.toordinal()] *)
Definition _MAXORDINAL : Z := 3652059.

Definition _is_leap (y : Z) : bool :=
  (y mod 4 =? 0) && (negb (y mod 100 =? 0) || (y mod 400 =? 0)).

Definition _DAYS_IN_MONTH (m : Z) : Z :=
  match m with
  | 1 => 31 | 2 => 28 | 3 => 31 | 4 => 30 | 5 => 31 | 6 => 30
  | 7 => 31 | 8 => 31 | 9 => 30 | 10 => 31 | 11 => 30 | 12 => 31
  | _ => -1
  end.

Definition _DAYS_BEFORE_MONTH (m : Z) : Z :=
  match m with
  | 1 => 0 | 2 => 31 | 3 => 59 | 4 => 90 | 5 => 120 | 6 => 151
  | 7 => 181 | 8 => 212 | 9 => 243 | 10 => 273 | 11 => 304 | 12 => 334
  | _ => -1
  end.

Definition _days_before_year (y : Z) : Z :=
  let y := y - 1 in y * 365 + y / 4 - y / 100 + y / 400.

Definition _days_in_month (y m : Z) : Z :=
  if (m =? 2) && _is_leap y then 29 else _DAYS_IN_MONTH m.

Definition _days_before_month (y m : Z) : Z :=
  _DAYS_BEFORE_MONTH m + (if (2 <? m) && _is_leap y then 1 else 0).

Definition _ymd2ord (y m d : Z) : Z :=
  _days_before_year y + _days_before_month y m + d.

Definition toordinal (d : date) : Z := _ymd2ord (year d) (month d) (day d).

Definition _DI400Y : Z := 146097.
Definition _DI100Y : Z := 36524.
Definition _DI4Y : Z := 1461.

Definition _ord2ymd (n : Z) : date :=
  let n := n - 1 in
  let n400 := n / _DI400Y in
  let n := n mod _DI400Y in
  let y := n400 * 400 + 1 in
  let n100 := n / _DI100Y in
  let n := n mod _DI100Y in
  let n4 := n / _DI4Y in
  let n := n mod _DI4Y in
  let n1 := n / 365 in
  let n := n mod 365 in
  let y := y + n100 * 100 + n4 * 4 + n1 in
  if (n1 =? 4) || (n100 =? 4) then Date (y - 1) 12 31
  else
    let leapyear := (n1 =? 3) && (negb (n4 =? 24) || (n100 =? 3)) in
    let m := Z.shiftr (n + 50) 5 in
    let preceding :=
      _DAYS_BEFORE_MONTH m + (if (2 <? m) && leapyear then 1 else 0) in
    if n <? preceding then
      let m := m - 1 in
      let preceding :=
        preceding
        - (_DAYS_IN_MONTH m + (if (m =? 2) && leapyear then 1 else 0)) in
      Date y m (n - preceding + 1)
    else Date y m (n - preceding + 1).

(** A [date] object exists only for a real calendar day. *)
Definition valid_date (d : date) : Prop :=
  MINYEAR <= year d <= MAXYEAR /\ 1 <= month d <= 12 /\
  1 <= day d <= _days_in_month (year d) (month d).

Definition valid_dateb (d : date) : bool :=
  (MINYEAR <=? year d) && (year d <=? MAXYEAR) &&
  (1 <=? month d) && (month d <=? 12) &&
  (1 <=? day d) && (day d <=? _days_in_month (year d) (month d)).

(** [d + timedelta(days=i)]; [None] is [OverflowError]. *)
Definition add_days (d : date) (i : Z) : option date :=
  let o := toordinal d + i in
  if (1 <=? o) && (o <=? _MAXORDINAL) then Some (_ord2ymd o) else None.

(** [(d2 - d1).days] *)
Definition days_between (d2 d1 : date) : Z := toordinal d2 - toordinal d1.

(** Dates compare as the tuples (year, month, day). *)
Definition date_ltb (a b : date) : bool :=
  (year a <? year b)
  || ((year a =? year b)
      && ((month a <? month b)
          || ((month a =? month b) && (day a <? day b)))).

Definition date_leb (a b : date) : bool := negb (date_ltb b a).

(** [d.weekday()]: Monday is 0. *)
Definition weekday (d : date) : Z := (toordinal d + 6) mod 7.

Definition day_name (w : Z) : string :=
  match w with
  | 0 => "Monday" | 1 => "Tuesday" | 2 => "Wednesday" | 3 => "Thursday"
  | 4 => "Friday" | 5 => "Saturday" | _ => "Sunday"
  end.

Definition digit (n : Z) : ascii := ascii_of_nat (48 + Z.to_nat (n mod 10)).

Definition pad2 (n : Z) : string :=
  String (digit (n / 10)) (String (digit n) "").

Definition pad4 (n : Z) : string :=
  String (digit (n / 1000)) (String (digit (n / 100)) (pad2 n)).

(** [d.strftime('%Y-%m-%d')], the year written with four digits as the
    library documents it.  This is what every platform writes from the
    year 1000 on.  For the years 1 to 999 the C library decides, and
    glibc writes the year without its leading zeros ('999-12-30'): the
    text below is not the one such a platform gives for those years, and
    what is stated of the text of a date is stated from the year 1000
    on, or of the dates the form of [main] hands over, which lie in the
    present or the future. *)
Definition strftime_ymd (d : date) : string :=
  pad4 (year d) ++ "-" ++ pad2 (month d) ++ "-" ++ pad2 (day d).

(** [d.strftime('%A')] in the C locale. *)
Definition strftime_A (d : date) : string := day_name (weekday d).

Definition digit_val (c : ascii) : option Z :=
  let n := Z.of_nat (nat_of_ascii c) in
  if (48 <=? n) && (n <=? 57) then Some (n - 48) else None.

Definition is_dash (c : ascii) : bool := Ascii.eqb c "-"%char.

(** [datetime.fromisoformat(s)] on the date-only form [YYYY-MM-DD], the
    form [main] produces with [strftime('%Y-%m-%d')]; [None] is
    [ValueError].  The longer forms with a time of day, which
    [fromisoformat] also reads, are not covered: the model answers
    [None] on them. *)
Definition fromisoformat (s : string) : option date :=
  match s with
  | String y1 (String y2 (String y3 (String y4 (String s1
      (String m1 (String m2 (String s2 (String d1 (String d2 "")))))))))
    =>
      if is_dash s1 && is_dash s2 then
        a ← digit_val y1; b ← digit_val y2; c ← digit_val y3;
        d ← digit_val y4; e ← digit_val m1; f ← digit_val m2;
        g ← digit_val d1; h ← digit_val d2;
        let dt := Date (a * 1000 + b * 100 + c * 10 + d)
                       (e * 10 + f) (g * 10 + h) in
        if valid_dateb dt then Some dt else None
      else None
  | _ => None
  end.

End Calendar.

Import Calendar.

(** ** What [main] derives from the submitted form *)

Inductive budget_choice : Type := ChoiceBudget | ChoiceMidRange | ChoiceLuxury.

(** The labels of the select box, already through [budget.lower()]. *)
Definition budget_lower (b : budget_choice) : string :=
  match b with
  | ChoiceBudget => "budget"
  | ChoiceMidRange => "mid-range"
  | ChoiceLuxury => "luxury"
  end.

Record trip_form : Type := TripForm {
  form_origin : string;
  form_destination : string;
  form_start_date : date;
  form_end_date : date;
  form_travelers : Z;
  form_budget : budget_choice;
  form_prefs : list string
}.

(** The arguments of [generate_all_parallel]. *)
Record trip_request : Type := TripRequest {
  origin : string;
  destination : string;
  days : Z;
  travelers : Z;
  preferences : list string;
  budget_level : string;
  season : string;
  start_date : string
}.

Definition SEASONS : list string := ["winter"; "spring"; "summer"; "fall"].

Definition season_index (m : Z) : Z := (m mod 12) / 3.

(** [["winter", "spring", "summer", "fall"][(month % 12) // 3]];
    [None] is [IndexError]. *)
Definition season_of_month (m : Z) : option string :=
  SEASONS !! Z.to_nat (season_index m).

Inductive submit_outcome : Type :=
| MissingPlace        (* "Please enter both origin and destination" *)
| EndNotAfterStart    (* "End date must be after start date" *)
| SubmitFailed        (* an exception before the core is reached *)
| CoreInvoked (r : trip_request).

Definition is_empty (s : string) : bool :=
  match s with "" => true | _ => false end.

(** The [if submit:] branch of [main], up to the call of the core. *)
Definition main_submit (f : trip_form) : submit_outcome :=
  if is_empty (form_origin f) || is_empty (form_destination f) then
    MissingPlace
  else if date_leb (form_end_date f) (form_start_date f) then
    EndNotAfterStart
  else
    let days := days_between (form_end_date f) (form_start_date f) in
    match season_of_month (month (form_start_date f)) with
    | None => SubmitFailed
    | Some season =>
        let start_date_str := strftime_ymd (form_start_date f) in
        CoreInvoked
          {| origin := form_origin f;
             destination := form_destination f;
             days := days;
             travelers := form_travelers f;
             preferences :=
               match form_prefs f with [] => ["Culture"] | p => p end;
             budget_level := budget_lower (form_budget f);
             season := season;
             start_date := start_date_str |}
    end.


(** ** Exceptions, the collaborators and the state of the process *)

Inductive exn : Type := Exn (kind : string) (msg : string).

(** [str(e)] *)
Definition str_exn (e : exn) : string :=
  match e with Exn _ msg => msg end.

Inductive res (A : Type) : Type :=
| Ok (a : A)
| Raised (e : exn).
Arguments Ok {A} a.
Arguments Raised {A} e.

Definition res_bind {A B : Type} (x : res A) (k : A -> res B) : res B :=
  match x with
  | Ok a => k a
  | Raised e => Raised e
  end.

(** The four instruction templates.  The text of a prompt is a function of
    the values interpolated into it, which is all a request keeps here. *)
Inductive prompt : Type :=
| InsightsPrompt (destination : string)
| ItineraryPrompt (days : Z)
    (destination origin prefs_str budget_level start_date : string)
| PackingPrompt (destination season : string) (days : Z)
    (activities : string)
| BudgetPrompt (travelers : Z) (destination : string) (days : Z)
    (budget_level : string).

Record request : Type := Request {
  req_model : string;
  req_prompt : prompt;
  req_temperature : Z;     (* in tenths *)
  req_max_tokens : Z
}.

#[global] Instance prompt_eq_dec : EqDecision prompt.
Proof. solve_decision. Defined.

#[global] Instance request_eq_dec : EqDecision request.
Proof. solve_decision. Defined.

(** What the program takes from outside.  [chat_completions_create r k] is
    the outcome of issuing request [r] when it has been issued [k] times
    before: the text of [response.choices[0].message.content], or the
    exception raised on the way to it.  Answers to one request may thus
    differ from one issue to the next. *)
Class Collaborators : Type := {
  md5_hexdigest : string -> string;
  chat_completions_create : request -> nat -> res string;
  json_loads : string -> res json
}.

(** The process state the class touches: the class attribute [_cache], the
    requests sent to the model so far, and the lines given to
    [logger.error]. *)
Record world : Type := World {
  _cache : gmap string json;
  issued : list request;
  logged : list string
}.

Definition M (A : Type) : Type := world -> res A * world.

Definition ret {A : Type} (a : A) : M A := fun w => (Ok a, w).

Definition raise {A : Type} (e : exn) : M A := fun w => (Raised e, w).

Definition bind {A B : Type} (m : M A) (k : A -> M B) : M B :=
  fun w =>
    match m w with
    | (Ok a, w') => k a w'
    | (Raised e, w') => (Raised e, w')
    end.

(** [try: body except Exception as e: handler(e)] *)
Definition try_except {A : Type} (body : M A) (handler : exn -> M A) : M A :=
  fun w =>
    match body w with
    | (Ok a, w') => (Ok a, w')
    | (Raised e, w') => handler e w'
    end.

Definition lift_res {A : Type} (x : res A) : M A := fun w => (x, w).

Notation "'let!' x ':=' m 'in' k" := (bind m (fun x => k))
  (at level 10, x name, m at level 100, k at level 200).
Notation "m1 '>>' m2" := (bind m1 (fun _ => m2))
  (at level 100, m2 at level 200, right associativity).

(** The three ways the state changes. *)
Definition set_cache (key : string) (value : json) (w : world) : world :=
  {| _cache := <[key := value]> (_cache w);
     issued := issued w;
     logged := logged w |}.

Definition note_request (q : request) (w : world) : world :=
  {| _cache := _cache w; issued := issued w ++ [q]; logged := logged w |}.

Definition note_error (line : string) (w : world) : world :=
  {| _cache := _cache w; issued := issued w; logged := logged w ++ [line] |}.

(** [key in _cache] and [_cache[key]] in one step *)
Definition cache_lookup (key : string) : M (option json) :=
  fun w => (Ok (_cache w !! key), w).

(** [_cache[key] = value] *)
Definition cache_store (key : string) (value : json) : M unit :=
  fun w => (Ok tt, set_cache key value w).

(** [logger.error(line)] *)
Definition logger_error (line : string) : M unit :=
  fun w => (Ok tt, note_error line w).

(** How often request [q] has been sent so far. *)
Definition times_issued (q : request) (w : world) : nat :=
  length (filter (fun q' => q' = q) (issued w)).

Section core.

Context `{!Collaborators}.

(** [client.chat.completions.create(...)] down to the content text *)
Definition create_content (q : request) : M string :=
  fun w => (chat_completions_create q (times_issued q w), note_request q w).

Definition loads (text : string) : M json := lift_res (json_loads text).

Definition _get_cache_key (func_name : string) (args : list string)
  : string :=
  let key := func_name ++ "_" ++ join "_" args in
  md5_hexdigest key.

(** *** [get_destination_insights] *)

Definition insights_request (destination : string) : request :=
  {| req_model := "gpt-4o-mini";
     req_prompt := InsightsPrompt destination;
     req_temperature := 7;
     req_max_tokens := 1500 |}.

(** The [try] block of [get_destination_insights]. *)
Definition insights_try (cache_key destination : string) : M json :=
  let! content := create_content (insights_request destination) in
  let! result := loads content in
  cache_store cache_key result >>
  ret result.

Definition get_destination_insights (destination : string) : M json :=
  let cache_key := _get_cache_key "insights" [destination] in
  let! cached := cache_lookup cache_key in
  match cached with
  | Some value => ret value
  | None =>
      try_except (insights_try cache_key destination)
        (fun e =>
           logger_error ("Insights error: " ++ str_exn e) >>
           ret (JObj []))
  end.

(** *** [create_daily_itinerary] *)

Definition type_name (j : json) : string :=
  match j with
  | JNull => "NoneType"
  | JBool _ => "bool"
  | JNum _ => "int"
  | JStr _ => "str"
  | JList _ => "list"
  | JObj _ => "dict"
  end.

(** [result.get("itinerary", result.get("days", []))] *)
Definition result_get_itinerary (result : json) : res json :=
  match result with
  | JObj fields =>
      let days_or_empty := default (JList []) (dict_get "days" fields) in
      Ok (default days_or_empty (dict_get "itinerary" fields))
  | _ =>
      Raised (Exn "AttributeError"
                ("'" ++ type_name result
                 ++ "' object has no attribute 'get'"))
  end.

(** One round of the loop over [enumerate(itinerary)]. *)
Definition set_day_fields (start_date : string) (i : Z) (day : json)
  : res json :=
  match fromisoformat start_date with
  | None =>
      Raised (Exn "ValueError"
                ("Invalid isoformat string: '" ++ start_date ++ "'"))
  | Some start =>
      match add_days start i with
      | None => Raised (Exn "OverflowError" "date value out of range")
      | Some day_date =>
          match day with
          | JObj fields =>
              let fields :=
                dict_set "date" (JStr (strftime_ymd day_date)) fields in
              let fields :=
                dict_set "day_of_week" (JStr (strftime_A day_date)) fields in
              Ok (JObj fields)
          | _ =>
              Raised (Exn "TypeError"
                        ("'" ++ type_name day
                         ++ "' object does not support item assignment"))
          end
      end
  end.

(** The loop, started at index [i]. *)
Fixpoint ensure_dates (start_date : string) (i : Z) (entries : list json)
  : res (list json) :=
  match entries with
  | [] => Ok []
  | day :: rest =>
      res_bind (set_day_fields start_date i day) (fun day' =>
      res_bind (ensure_dates start_date (i + 1) rest) (fun rest' =>
      Ok (day' :: rest')))
  end.

Definition chars (s : string) : list json :=
  map (fun c => JStr (String c "")) (list_ascii_of_string s).

(** The loop on whatever [itinerary] is: a list is walked entry by entry,
    a dictionary by its keys, a string by its characters, anything else
    is not iterable.  The value returned is [itinerary] itself, with its
    entries updated. *)
Definition normalize_dates (start_date : string) (itinerary : json)
  : res json :=
  match itinerary with
  | JList entries =>
      res_bind (ensure_dates start_date 0 entries) (fun entries' =>
      Ok (JList entries'))
  | JObj fields =>
      res_bind (ensure_dates start_date 0 (map (fun kv => JStr kv.1) fields))
        (fun _ => Ok itinerary)
  | JStr s =>
      res_bind (ensure_dates start_date 0 (chars s)) (fun _ => Ok itinerary)
  | _ =>
      Raised (Exn "TypeError"
                ("'" ++ type_name itinerary ++ "' object is not iterable"))
  end.

Definition itinerary_request
    (destination origin : string) (days : Z) (preferences : list string)
    (budget_level start_date : string) : request :=
  let prefs_str :=
    match preferences with
    | [] => "general sightseeing"
    | _ => join ", " preferences
    end in
  {| req_model := "gpt-4o";
     req_prompt :=
       ItineraryPrompt days destination origin prefs_str budget_level
         start_date;
     req_temperature := 8;
     req_max_tokens := 500 * days |}.

(** The [try] block of [create_daily_itinerary]. *)
Definition itinerary_try
    (destination origin : string) (days : Z) (preferences : list string)
    (budget_level start_date : string) : M json :=
  let! content :=
    create_content
      (itinerary_request destination origin days preferences budget_level
         start_date) in
  let! result := loads content in
  let! itinerary := lift_res (result_get_itinerary result) in
  lift_res (normalize_dates start_date itinerary).

Definition create_daily_itinerary
    (destination origin : string) (days : Z) (preferences : list string)
    (budget_level start_date : string) : M json :=
  try_except
    (itinerary_try destination origin days preferences budget_level
       start_date)
    (fun e =>
       logger_error ("Itinerary error: " ++ str_exn e) >>
       ret (JList [])).

(** *** [get_packing_list] *)

(** [str(activities)] for a list of strings that need no escaping, such
    as the interests offered by the form. *)
Definition str_list (items : list string) : string :=
  "[" ++ join ", " (map (fun s => "'" ++ s ++ "'") items) ++ "]".

Definition packing_request
    (destination : string) (days : Z) (season : string)
    (activities : list string) : request :=
  {| req_model := "gpt-4o-mini";
     req_prompt :=
       PackingPrompt destination season days (join ", " activities);
     req_temperature := 6;
     req_max_tokens := 600 |}.

(** The [try] block of [get_packing_list]. *)
Definition packing_try
    (cache_key destination : string) (days : Z) (season : string)
    (activities : list string) : M json :=
  let! content :=
    create_content (packing_request destination days season activities) in
  let! result := loads content in
  cache_store cache_key result >>
  ret result.

Definition get_packing_list
    (destination : string) (days : Z) (season : string)
    (activities : list string) : M json :=
  let cache_key :=
    _get_cache_key "packing" [destination; season; str_list activities] in
  let! cached := cache_lookup cache_key in
  match cached with
  | Some value => ret value
  | None =>
      try_except (packing_try cache_key destination days season activities)
        (fun e =>
           logger_error ("Packing error: " ++ str_exn e) >>
           ret (JObj []))
  end.

(** *** [get_budget_breakdown] *)

Definition budget_request
    (destination : string) (days travelers : Z) (budget_level : string)
  : request :=
  {| req_model := "gpt-4o-mini";
     req_prompt := BudgetPrompt travelers destination days budget_level;
     req_temperature := 5;
     req_max_tokens := 500 |}.

(** The [try] block of [get_budget_breakdown]. *)
Definition budget_try
    (destination : string) (days travelers : Z) (budget_level : string)
  : M json :=
  let! content :=
    create_content (budget_request destination days travelers budget_level) in
  loads content.

Definition get_budget_breakdown
    (destination : string) (days travelers : Z) (budget_level : string)
  : M json :=
  try_except (budget_try destination days travelers budget_level)
    (fun e =>
       logger_error ("Budget error: " ++ str_exn e) >>
       ret (JObj [])).

(** *** [generate_all_parallel] *)

Inductive task : Type := Insights | Itinerary | Budget | Packing.

#[global] Instance task_eq_dec : EqDecision task.
Proof. solve_decision. Defined.

(** The order of [executor.submit]. *)
Definition all_tasks : list task := [Insights; Itinerary; Budget; Packing].

(** The key under which a task reports. *)
Definition tag (t : task) : string :=
  match t with
  | Insights => "insights"
  | Itinerary => "itinerary"
  | Budget => "budget"
  | Packing => "packing"
  end.

(** The component a task calls. *)
Definition component (t : task) (r : trip_request) : M json :=
  match t with
  | Insights => get_destination_insights (destination r)
  | Itinerary =>
      create_daily_itinerary (destination r) (origin r) (days r)
        (preferences r) (budget_level r) (start_date r)
  | Budget =>
      get_budget_breakdown (destination r) (days r) (travelers r)
        (budget_level r)
  | Packing =>
      get_packing_list (destination r) (days r) (season r) (preferences r)
  end.

(** [run_insights], [run_itinerary], [run_budget], [run_packing] *)
Definition run_task (t : task) (r : trip_request) : M (string * json) :=
  try_except
    (let! value := component t r in ret (tag t, value))
    (fun e => ret (tag t, JObj [("error", JStr (str_exn e))])).

(** What [future.result()] gives: the value returned by the callable, or
    the exception it raised. *)
Definition future : Type := res (string * json).

(** A worker runs a callable to its end and keeps the outcome in the
    future; nothing is raised in the submitting thread. *)
Definition worker (fn : M (string * json)) : M future :=
  fun w => let '(outcome, w') := fn w in (Ok outcome, w').

(** One execution of the pool: the order in which the four callables take
    effect on the shared state, and the order in which [as_completed]
    hands their futures to the collecting loop.  Each callable is taken
    as one step. *)
Record schedule : Type := Schedule {
  run_order : list task;
  completion_order : list task
}.

Definition valid_schedule (s : schedule) : Prop :=
  run_order s ≡ₚ all_tasks /\ completion_order s ≡ₚ all_tasks.

Fixpoint run_workers (r : trip_request) (order : list task)
  : M (list (task * future)) :=
  match order with
  | [] => ret []
  | t :: rest =>
      let! f := worker (run_task t r) in
      let! fs := run_workers r rest in
      ret ((t, f) :: fs)
  end.

Definition future_of (fs : list (task * future)) (t : task)
  : option future :=
  snd <$> find (fun tf => bool_decide (tf.1 = t)) fs.

(** [as_completed(futures)] under a completion order *)
Definition as_completed (order : list task) (fs : list (task * future))
  : list future :=
  omap (future_of fs) order.

(** [results['errors'].append(line)] *)
Definition append_error (line : string) (results : gmap string json)
  : res (gmap string json) :=
  match results !! "errors" with
  | Some (JList errors) =>
      Ok (<["errors" := JList (errors ++ [JStr line])]> results)
  | Some other =>
      Raised (Exn "AttributeError"
                ("'" ++ type_name other
                 ++ "' object has no attribute 'append'"))
  | None => Raised (Exn "KeyError" "'errors'")
  end.

(** The loop over [as_completed(futures)]. *)
Fixpoint collect (fs : list future) (results : gmap string json)
  : res (gmap string json) :=
  match fs with
  | [] => Ok results
  | Ok (key, value) :: rest => collect rest (<[key := value]> results)
  | Raised e :: rest =>
      res_bind (append_error (str_exn e) results) (collect rest)
  end.

Definition initial_results : gmap string json :=
  <["insights" := JNull]> (<["itinerary" := JNull]> (<["budget" := JNull]>
  (<["packing" := JNull]> (<["errors" := JList []]> ∅)))).

Definition generate_all_parallel (s : schedule) (r : trip_request)
  : M (gmap string json) :=
  let results := initial_results in
  let! futures := run_workers r (run_order s) in
  lift_res (collect (as_completed (completion_order s) futures) results).

End core.

(** ** Vocabulary of the statements *)

Section vocabulary.

Context `{!Collaborators}.

(** The request a task sends to the model. *)
Definition task_request (t : task) (r : trip_request) : request :=
  match t with
  | Insights => insights_request (destination r)
  | Itinerary =>
      itinerary_request (destination r) (origin r) (days r) (preferences r)
        (budget_level r) (start_date r)
  | Budget =>
      budget_request (destination r) (days r) (travelers r) (budget_level r)
  | Packing =>
      packing_request (destination r) (days r) (season r) (preferences r)
  end.

(** The cache key of the two memoised operations. *)
Definition task_cache_key (t : task) (r : trip_request) : option string :=
  match t with
  | Insights => Some (_get_cache_key "insights" [destination r])
  | Packing =>
      Some (_get_cache_key "packing"
              [destination r; season r; str_list (preferences r)])
  | Itinerary | Budget => None
  end.

(** What a task finds in the cache: [None] for a miss and for the tasks
    that do not look. *)
Definition task_cached (t : task) (r : trip_request) (w : world)
  : option json :=
  k ← task_cache_key t r; _cache w !! k.

(** Sending [q] in state [w]: the parsed answer, or the exception of the
    call or of [json.loads]. *)
Definition answer (q : request) (w : world) : res json :=
  res_bind (chat_completions_create q (times_issued q w)) json_loads.

(** The model call of a task in state [w]. *)
Definition call_outcome (t : task) (r : trip_request) (w : world)
  : res json :=
  answer (task_request t r) w.

(** The task reaches the model and the call raises or its answer does
    not parse. *)
Definition model_call_fails (t : task) (r : trip_request) (w : world)
  : Prop :=
  task_cached t r w = None /\ exists e, call_outcome t r w = Raised e.

(** What a task does with a parsed answer. *)
Definition post_process (t : task) (r : trip_request) (result : json)
  : res json :=
  match t with
  | Itinerary =>
      res_bind (result_get_itinerary result) (normalize_dates (start_date r))
  | Insights | Budget | Packing => Ok result
  end.

(** The task reaches the model, the answer parses and the task returns
    [value] from its [try] block. *)
Definition task_succeeds_with (t : task) (r : trip_request) (w : world)
    (value : json) : Prop :=
  task_cached t r w = None /\
  exists result,
    call_outcome t r w = Ok result /\ post_process t r result = Ok value.

(** What the [except] branch of a component returns. *)
Definition empty_value (t : task) : json :=
  match t with
  | Itinerary => JList []
  | Insights | Budget | Packing => JObj []
  end.

Definition error_label (t : task) : string :=
  match t with
  | Insights => "Insights error: "
  | Itinerary => "Itinerary error: "
  | Budget => "Budget error: "
  | Packing => "Packing error: "
  end.

(** The value a component returns when called on its own in state [w]. *)
Definition standalone (t : task) (r : trip_request) (w : world) : json :=
  match component t r w with
  | (Ok value, _) => value
  | (Raised _, _) => JNull
  end.

(** What a task sees of the state: its cache entry and how often its
    request went out. *)
Definition view (t : task) (r : trip_request) (w : world)
  : option json * nat :=
  (task_cached t r w, times_issued (task_request t r) w).

(** The insights task and the packing task use different cache keys. *)
Definition keys_disjoint (r : trip_request) : Prop :=
  task_cache_key Insights r <> task_cache_key Packing r.

(** [line] mentions the task by the key it reports under. *)
Definition names_task (t : task) (line : string) : Prop :=
  exists pre post, line = pre ++ tag t ++ post.

(** The in-band error shape [{'error': message}]. *)
Definition error_shaped (j : json) : Prop :=
  exists message, j = JObj [("error", JStr message)].

(** The season each month is said to fall in. *)
Definition season_table (m : Z) : string :=
  match m with
  | 12 | 1 | 2 => "winter"
  | 3 | 4 | 5 => "spring"
  | 6 | 7 | 8 => "summer"
  | _ => "fall"
  end.

(** The fields of an entry once its date is filled in. *)
Definition dated (day_date : date) (fields : list (string * json))
  : list (string * json) :=
  dict_set "day_of_week" (JStr (strftime_A day_date))
    (dict_set "date" (JStr (strftime_ymd day_date)) fields).

(** [results[key] = value] for each pair in turn. *)
Definition assign_all (results : gmap string json)
    (kvs : list (string * json)) : gmap string json :=
  foldl (fun m kv => <[kv.1 := kv.2]> m) results kvs.

(** A future of the pool holds a pair under the tag of its task. *)
Definition tagged (tf : task * future) : Prop :=
  exists value, tf.2 = Ok (tag tf.1, value).

(** The pair a task handed in, if its future holds one. *)
Definition handed_in (fs : list (task * future)) (t : task)
  : option (string * json) :=
  match future_of fs t with
  | Some (Ok kv) => Some kv
  | Some (Raised _) | None => None
  end.

(** The reading of the aggregator under which one failed model call
    shows in the error list: the field of the failed task is empty, some
    line of [errors] names the task, and the other fields hold the values
    of their tasks. *)
Definition reports_failure_in_errors
    (s : schedule) (r : trip_request) (w : world) (t : task)
    (values : task -> json) : Prop :=
  exists results w',
    generate_all_parallel s r w = (Ok results, w') /\
    results !! tag t = Some (empty_value t) /\
    (exists errors line,
        results !! "errors" = Some (JList errors) /\
        JStr line ∈ errors /\ names_task t line) /\
    forall t', t' <> t -> results !! tag t' = Some (values t').

(** The reading of a component under which a failed model call comes
    back as [{'error': message}]. *)
Definition returns_error_object (t : task) (r : trip_request) (w : world)
  : Prop :=
  exists value w', component t r w = (Ok value, w') /\ error_shaped value.

End vocabulary.

(** ** A scripted collaborator for running the model

    The digest is the identity, the model answers each kind of request
    with a fixed text unless the task is listed as down, and [json_loads]
    knows these texts. *)

Definition demo_task (p : prompt) : task :=
  match p with
  | InsightsPrompt _ => Insights
  | ItineraryPrompt _ _ _ _ _ _ => Itinerary
  | PackingPrompt _ _ _ _ => Packing
  | BudgetPrompt _ _ _ _ => Budget
  end.

Definition demo_text (t : task) : string := tag t ++ ".json".

Definition demo_itinerary : json :=
  JObj [("itinerary",
         JList [JObj [("day", JNum 1); ("date", JStr "1999-12-31");
                      ("title", JStr "Arrival")];
                JObj [("day", JNum 7); ("title", JStr "Museums")];
                JObj [("title", JStr "Departure");
                      ("day_of_week", JStr "Friday")]])].

Definition demo_loads (text : string) : res json :=
  if decide (text = "insights.json") then
    Ok (JObj [("description", JStr "City of light")])
  else if decide (text = "itinerary.json") then Ok demo_itinerary
  else if decide (text = "budget.json") then
    Ok (JObj [("total_per_person", JNum 1200)])
  else if decide (text = "packing.json") then
    Ok (JObj [("documents", JList [JStr "Passport"])])
  else Raised (Exn "JSONDecodeError" "Expecting value").

Definition demo (down : task -> bool) : Collaborators :=
  {| md5_hexdigest := fun s => s;
     chat_completions_create := fun q _ =>
       let t := demo_task (req_prompt q) in
       if down t then Raised (Exn "APIError" "service unavailable")
       else Ok (demo_text t);
     json_loads := demo_loads |}.

Definition all_up : task -> bool := fun _ => false.
Definition all_down : task -> bool := fun _ => true.
Definition only_down (t : task) : task -> bool :=
  fun t' => bool_decide (t' = t).

Definition empty_world : world :=
  {| _cache := ∅; issued := []; logged := [] |}.

Definition paris : trip_request :=
  {| origin := "New York";
     destination := "Paris";
     days := 3;
     travelers := 2;
     preferences := ["Culture"];
     budget_level := "mid-range";
     season := "summer";
     start_date := "2024-06-01" |}.

Definition paris_form : trip_form :=
  {| form_origin := "New York";
     form_destination := "Paris";
     form_start_date := Date 2024 6 1;
     form_end_date := Date 2024 6 4;
     form_travelers := 2;
     form_budget := ChoiceMidRange;
     form_prefs := ["Culture"] |}.

Definition in_order : schedule :=
  {| run_order := all_tasks; completion_order := all_tasks |}.

Definition shuffled : schedule :=
  {| run_order := [Packing; Insights; Budget; Itinerary];
     completion_order := [Budget; Packing; Itinerary; Insights] |}.

(** ** The rest of the [if submit:] branch of [main]

    What the page shows and keeps once the form is sent: the banners of
    [st.error] and [st.warning], and [st.session_state.trip_plan].  The
    progress bar, the status line and the pause before they are cleared
    leave no trace in either and are not modelled. *)

(** The labels of the select box as the page shows them. *)
Definition budget_label (b : budget_choice) : string :=
  match b with
  | ChoiceBudget => "Budget"
  | ChoiceMidRange => "Mid-Range"
  | ChoiceLuxury => "Luxury"
  end.

Definition month_name (m : Z) : string :=
  match m with
  | 1 => "January" | 2 => "February" | 3 => "March" | 4 => "April"
  | 5 => "May" | 6 => "June" | 7 => "July" | 8 => "August"
  | 9 => "September" | 10 => "October" | 11 => "November"
  | _ => "December"
  end.

(** [d.strftime('%B %d, %Y')] in the C locale *)
Definition strftime_B_d_Y (d : date) : string :=
  month_name (month d) ++ " " ++ pad2 (day d) ++ ", " ++ pad4 (year d).

Inductive banner : Type :=
| ErrorBanner (message : string)     (* [st.error(message)] *)
| LongTripWarning (days : Z).        (* [st.warning] for a long trip *)

(** [results.get(key, default)] *)
Definition results_get (key : string) (dflt : json)
    (results : gmap string json) : json :=
  default dflt (results !! key).

(** The dictionary stored in [st.session_state.trip_plan]. *)
Definition trip_plan_of (f : trip_form) (days : Z) (start_date_str : string)
    (results : gmap string json) : list (string * json) :=
  [("origin", JStr (form_origin f));
   ("destination", JStr (form_destination f));
   ("dates",
    JStr (strftime_B_d_Y (form_start_date f) ++ " - "
          ++ strftime_B_d_Y (form_end_date f)));
   ("start_date", JStr start_date_str);
   ("days", JNum days);
   ("travelers", JNum (form_travelers f));
   ("budget_level", JStr (budget_label (form_budget f)));
   ("preferences", JList (JStr <$> form_prefs f));
   ("insights", results_get "insights" (JObj []) results);
   ("itinerary", results_get "itinerary" (JList []) results);
   ("budget", results_get "budget" (JObj []) results);
   ("packing", results_get "packing" (JObj []) results)].

Record page : Type := Page {
  banners : list banner;
  trip_plan : option (list (string * json))
}.

Section page.

Context `{!Collaborators}.

(** The [if submit:] branch, from the form and the plan kept so far to
    what the page shows and keeps. *)
Definition main_on_submit (s : schedule) (f : trip_form)
    (kept : option (list (string * json))) (w : world) : page * world :=
  if is_empty (form_origin f) || is_empty (form_destination f) then
    ({| banners := [ErrorBanner "Please enter both origin and destination"];
        trip_plan := kept |}, w)
  else if date_leb (form_end_date f) (form_start_date f) then
    ({| banners := [ErrorBanner "End date must be after start date"];
        trip_plan := kept |}, w)
  else
    let days := days_between (form_end_date f) (form_start_date f) in
    let warned := if 14 <? days then [LongTripWarning days] else [] in
    match season_of_month (month (form_start_date f)) with
    | None =>
        ({| banners :=
              warned ++ [ErrorBanner "Error: list index out of range"];
            trip_plan := kept |}, w)
    | Some season =>
        let start_date_str := strftime_ymd (form_start_date f) in
        let outcome :=
          generate_all_parallel s
            {| origin := form_origin f;
               destination := form_destination f;
               days := days;
               travelers := form_travelers f;
               preferences :=
                 match form_prefs f with [] => ["Culture"] | p => p end;
               budget_level := budget_lower (form_budget f);
               season := season;
               start_date := start_date_str |} w in
        match outcome with
        | (Ok results, w') =>
            ({| banners := warned;
                trip_plan :=
                  Some (trip_plan_of f days start_date_str results) |}, w')
        | (Raised e, w') =>
            ({| banners := warned ++ [ErrorBanner ("Error: " ++ str_exn e)];
                trip_plan := kept |}, w')
        end
    end.

End page.

(** ** Further vocabulary *)

(** The keys of the dictionary the aggregator starts from. *)
Definition result_keys : gset string :=
  {["insights"; "itinerary"; "budget"; "packing"; "errors"]}.

(** The lines the loop appends for a list of futures: one for each
    future that holds an exception, in order of arrival. *)
Definition raised_lines (fs : list future) : list json :=
  omap (fun f : future =>
          match f with
          | Raised e => Some (JStr (str_exn e))
          | Ok _ => None
          end) fs.

(** A collaborator that answers each task as told: the text of an answer
    is the tag of the task, and [json_loads] gives what [answers] says
    for it. *)
Definition script (answers : task -> res json) : Collaborators :=
  {| md5_hexdigest := fun s => s;
     chat_completions_create := fun q _ => Ok (tag (demo_task (req_prompt q)));
     json_loads := fun text =>
       if decide (text = "insights") then answers Insights
       else if decide (text = "itinerary") then answers Itinerary
       else if decide (text = "budget") then answers Budget
       else if decide (text = "packing") then answers Packing
       else Raised (Exn "JSONDecodeError" "Expecting value") |}.

(** Every answer is the same value. *)
Definition always (j : json) : task -> res json := fun _ => Ok j.

Definition no_origin_form : trip_form :=
  {| form_origin := "";
     form_destination := "Paris";
     form_start_date := Date 2024 6 1;
     form_end_date := Date 2024 6 4;
     form_travelers := 2;
     form_budget := ChoiceMidRange;
     form_prefs := ["Culture"] |}.

(** The full names of the days of the week, Monday first; day 1 of the
    calendar, 0001-01-01, is a Monday. *)
Definition WEEKDAYS : list string :=
  ["Monday"; "Tuesday"; "Wednesday"; "Thursday"; "Friday"; "Saturday";
   "Sunday"].

(** The value the loop leaves under [key]: that of the last future that
    reports under it, if any does. *)
Fixpoint last_filed (key : string) (fs : list future) : option json :=
  match fs with
  | [] => None
  | f :: rest =>
      match last_filed key rest with
      | Some value => Some value
      | None =>
          match f with
          | Ok (k, value) => if decide (k = key) then Some value else None
          | Raised _ => None
          end
      end
  end.
(** ** Calendar facts *)

Section calendar_facts.

Lemma leap_year_length y :
  _days_before_year (y + 1)
  = _days_before_year y + 365 + (if _is_leap y then 1 else 0).
Proof.
  unfold _days_before_year, _is_leap.
  replace (y + 1 - 1) with y by lia.
  destruct (y mod 4 =? 0) eqn:E4; destruct (y mod 100 =? 0) eqn:E100;
    destruct (y mod 400 =? 0) eqn:E400; simpl;
    rewrite ?Z.eqb_eq, ?Z.eqb_neq in *;
    Z.div_mod_to_equations; lia.
Qed.

Lemma days_before_year_mono y1 y2 :
  y1 <= y2 -> _days_before_year y1 <= _days_before_year y2.
Proof.
  unfold _days_before_year. intros H.
  Z.div_mod_to_equations. lia.
Qed.

Lemma month_cases m :
  1 <= m <= 12 ->
  m = 1 \/ m = 2 \/ m = 3 \/ m = 4 \/ m = 5 \/ m = 6 \/
  m = 7 \/ m = 8 \/ m = 9 \/ m = 10 \/ m = 11 \/ m = 12.
Proof. lia. Qed.

Ltac split_month H :=
  apply month_cases in H;
  destruct H as [->|[->|[->|[->|[->|[->|[->|[->|[->|[->|[->| ->]]]]]]]]]]].

(** A day of year [y] comes before the first day of year [y + 1]. *)
Lemma ymd2ord_below_next_year y m d :
  1 <= m <= 12 -> 1 <= d <= _days_in_month y m ->
  _ymd2ord y m d < _days_before_year (y + 1) + 1.
Proof.
  intros Hm Hd. rewrite leap_year_length.
  unfold _ymd2ord, _days_before_month, _days_in_month in *.
  split_month Hm; destruct (_is_leap y); simpl in *; lia.
Qed.

Lemma ymd2ord_above_year y m d :
  1 <= m <= 12 -> 1 <= d -> _days_before_year y < _ymd2ord y m d.
Proof.
  intros Hm Hd. unfold _ymd2ord, _days_before_month.
  split_month Hm; destruct (_is_leap y); simpl; lia.
Qed.

(** Within one year the ordinal grows with the month. *)
Lemma ymd2ord_month_mono y m1 d1 m2 d2 :
  1 <= m1 <= 12 -> 1 <= m2 <= 12 -> m1 < m2 ->
  d1 <= _days_in_month y m1 -> 1 <= d2 ->
  _ymd2ord y m1 d1 < _ymd2ord y m2 d2.
Proof.
  intros H1 H2 Hlt Hd1 Hd2.
  unfold _ymd2ord, _days_before_month, _days_in_month in *.
  split_month H1; split_month H2; try lia;
    destruct (_is_leap y); simpl in *; lia.
Qed.

(** The order on dates is the order on their ordinals. *)
Lemma date_ltb_toordinal a b :
  valid_date a -> valid_date b ->
  date_ltb a b = true -> toordinal a < toordinal b.
Proof.
  intros (Hya & Hma & Hda) (Hyb & Hmb & Hdb) Hlt.
  unfold date_ltb in Hlt. unfold toordinal.
  destruct (year a <? year b) eqn:Ey.
  - apply Z.ltb_lt in Ey.
    pose proof (ymd2ord_below_next_year _ _ _ Hma Hda).
    pose proof (ymd2ord_above_year (year b) _ _ Hmb (proj1 Hdb)).
    pose proof (days_before_year_mono (year a + 1) (year b)).
    lia.
  - simpl in Hlt. apply andb_prop in Hlt as [Hy Hlt].
    apply Z.eqb_eq in Hy. rewrite Hy in *.
    destruct (month a <? month b) eqn:Em.
    + apply Z.ltb_lt in Em.
      apply ymd2ord_month_mono; lia.
    + simpl in Hlt. apply andb_prop in Hlt as [Hm Hd].
      apply Z.eqb_eq in Hm. apply Z.ltb_lt in Hd.
      rewrite Hm. unfold _ymd2ord. lia.
Qed.

End calendar_facts.

Lemma season_index_range m : 1 <= m <= 12 -> 0 <= season_index m <= 3.
Proof.
  intros Hm. unfold season_index. Z.div_mod_to_equations. lia.
Qed.

Lemma season_of_month_in_range m :
  1 <= m <= 12 -> season_of_month m = Some (season_table m).
Proof.
  intros Hm. apply month_cases in Hm.
  by destruct Hm as [->|[->|[->|[->|[->|[->|[->|[->|[->|[->|[->| ->]]]]]]]]]]].
Qed.

Example ord_2024_06_01 : toordinal (Date 2024 6 1) = 739038.
Proof. reflexivity. Qed.

Example ord2ymd_739038 : _ord2ymd 739038 = Date 2024 6 1.
Proof. reflexivity. Qed.

Example saturday_2024_06_01 : strftime_A (Date 2024 6 1) = "Saturday".
Proof. reflexivity. Qed.

Example maxordinal_is_9999_12_31 : toordinal (Date 9999 12 31) = _MAXORDINAL.
Proof. reflexivity. Qed.

Example fromisoformat_ok : fromisoformat "2024-06-01" = Some (Date 2024 6 1).
Proof. reflexivity. Qed.

Example fromisoformat_bad_day : fromisoformat "2023-02-29" = None.
Proof. reflexivity. Qed.

Example strftime_ymd_ok : strftime_ymd (Date 2024 6 1) = "2024-06-01".
Proof. reflexivity. Qed.


(** ** Dictionaries and the date back-fill *)

Lemma dict_get_set_eq k v d : dict_get k (dict_set k v d) = Some v.
Proof.
  induction d as [|[k' v'] d IH]; simpl.
  - by rewrite decide_True.
  - destruct (decide (k' = k)) as [->|Hne]; simpl.
    + by rewrite decide_True.
    + by rewrite decide_False.
Qed.

Lemma dict_get_set_ne k k' v d :
  k <> k' -> dict_get k' (dict_set k v d) = dict_get k' d.
Proof.
  intros Hne. induction d as [|[k0 v0] d IH]; simpl.
  - by rewrite decide_False.
  - destruct (decide (k0 = k)) as [->|Hne0]; simpl.
    + by rewrite !decide_False.
    + destruct (decide (k0 = k')); done.
Qed.

Lemma valid_dateb_valid d : valid_dateb d = true -> valid_date d.
Proof.
  unfold valid_dateb, valid_date. rewrite !andb_true_iff, !Z.leb_le. tauto.
Qed.

Lemma fromisoformat_valid s d : fromisoformat s = Some d -> valid_date d.
Proof.
  unfold fromisoformat.
  destruct s as [|y1 [|y2 [|y3 [|y4 [|s1 [|m1 [|m2 [|s2 [|d1 [|d2 [|]]]]]]]]]]];
    try done.
  destruct (is_dash s1 && is_dash s2); [|done].
  destruct (digit_val y1); [|done]. destruct (digit_val y2); [|done].
  destruct (digit_val y3); [|done]. destruct (digit_val y4); [|done].
  destruct (digit_val m1); [|done]. destruct (digit_val m2); [|done].
  destruct (digit_val d1); [|done]. destruct (digit_val d2); [|done].
  csimpl. destruct (valid_dateb _) eqn:Hv; [|done].
  intros [= <-]. by apply valid_dateb_valid.
Qed.

Lemma toordinal_pos d : valid_date d -> 1 <= toordinal d.
Proof.
  intros (Hy & Hm & Hd).
  pose proof (ymd2ord_above_year (year d) (month d) (day d) Hm (proj1 Hd)).
  pose proof (days_before_year_mono 1 (year d) (proj1 Hy)).
  unfold toordinal. change (_days_before_year 1) with 0 in *. lia.
Qed.

Lemma add_days_in_range d i :
  1 <= toordinal d + i <= _MAXORDINAL ->
  add_days d i = Some (_ord2ymd (toordinal d + i)).
Proof.
  intros [Hlo Hhi]. unfold add_days.
  apply Z.leb_le in Hlo, Hhi. by rewrite Hlo, Hhi.
Qed.

Lemma dated_date day_date fields :
  dict_get "date" (dated day_date fields)
  = Some (JStr (strftime_ymd day_date)).
Proof.
  unfold dated. rewrite dict_get_set_ne by done. apply dict_get_set_eq.
Qed.

Lemma dated_day_of_week day_date fields :
  dict_get "day_of_week" (dated day_date fields)
  = Some (JStr (strftime_A day_date)).
Proof. apply dict_get_set_eq. Qed.

Lemma dated_other day_date fields k :
  k <> "date" -> k <> "day_of_week" ->
  dict_get k (dated day_date fields) = dict_get k fields.
Proof.
  intros H1 H2. unfold dated. by rewrite !dict_get_set_ne.
Qed.

(** The loop gives the entry at offset [k] the date of index [i + k]. *)
Lemma ensure_dates_spec start_date start entries i :
  fromisoformat start_date = Some start ->
  Forall (fun e => is_obj e = true) entries ->
  1 <= toordinal start + i ->
  toordinal start + i + Z.of_nat (length entries) - 1 <= _MAXORDINAL ->
  exists entries',
    ensure_dates start_date i entries = Ok entries' /\
    length entries' = length entries /\
    forall (k : nat) fields,
      entries !! k = Some (JObj fields) ->
      exists day_date,
        add_days start (i + Z.of_nat k) = Some day_date /\
        entries' !! k = Some (JObj (dated day_date fields)).
Proof.
  intros Hstart Hobj. revert i.
  induction Hobj as [|e entries He _ IH]; intros i Hlo Hhi.
  - exists []. split; [done|]. split; [done|]. intros k fields Hk.
    by rewrite lookup_nil in Hk.
  - destruct e as [| | | | |fields0]; try done.
    simpl length in Hhi.
    destruct (IH (i + 1)) as (rest' & Hrest & Hlen & Hat); [lia..|].
    assert (Hadd : add_days start i = Some (_ord2ymd (toordinal start + i)))
      by (apply add_days_in_range; lia).
    exists (JObj (dated (_ord2ymd (toordinal start + i)) fields0) :: rest').
    split; [|split].
    + simpl. unfold set_day_fields. rewrite Hstart, Hadd. simpl.
      by rewrite Hrest.
    + simpl. by rewrite Hlen.
    + intros [|k] fields Hk; simpl in Hk.
      * injection Hk as ->. exists (_ord2ymd (toordinal start + i)).
        split; [|done]. by rewrite Z.add_0_r.
      * destruct (Hat k fields Hk) as (day_date & Hday & Hentry).
        exists day_date. split; [|done].
        rewrite <- Hday. f_equal. lia.
Qed.

(** ** The components, one call at a time *)

Section component_facts.

Context `{!Collaborators}.

(** A component call, read off its inputs: the cache entry if there is
    one, else one request and either the processed answer (kept in the
    cache by the memoised operations) or the empty value and a log line. *)
Lemma component_unfold t r w :
  component t r w =
    match task_cached t r w with
    | Some value => (Ok value, w)
    | None =>
        let w1 := note_request (task_request t r) w in
        match res_bind (call_outcome t r w) (post_process t r) with
        | Ok value =>
            (Ok value,
             match task_cache_key t r with
             | Some key => set_cache key value w1
             | None => w1
             end)
        | Raised e =>
            (Ok (empty_value t), note_error (error_label t ++ str_exn e) w1)
        end
    end.
Proof.
  destruct t; simpl;
    unfold get_destination_insights, create_daily_itinerary,
      get_budget_breakdown, get_packing_list, task_cached, call_outcome, answer,
      insights_try, itinerary_try, budget_try, packing_try,
      try_except, bind, cache_lookup, create_content, loads, lift_res,
      cache_store, logger_error, ret; simpl.
  - destruct (_cache w !! _); [done|].
    destruct (chat_completions_create _ _); [|done]. simpl.
    destruct (json_loads _); done.
  - destruct (chat_completions_create _ _); [|done]. simpl.
    destruct (json_loads _) as [result|]; [|done]. simpl.
    destruct (result_get_itinerary result) as [it|]; [|done]. simpl.
    destruct (normalize_dates _ it); done.
  - destruct (chat_completions_create _ _); [|done]. simpl.
    destruct (json_loads _); done.
  - destruct (_cache w !! _); [done|].
    destruct (chat_completions_create _ _); [|done]. simpl.
    destruct (json_loads _); done.
Qed.

Lemma component_total t r w :
  exists value w', component t r w = (Ok value, w').
Proof.
  rewrite component_unfold.
  destruct (task_cached t r w); [eauto|]. simpl.
  destruct (res_bind _ _); eauto.
Qed.

Lemma component_standalone t r w :
  exists w', component t r w = (Ok (standalone t r w), w').
Proof.
  unfold standalone.
  destruct (component_total t r w) as (value & w' & ->). eauto.
Qed.

(** A failed model call: the empty value, one request, one log line, and
    the cache as it was. *)
Lemma component_fails t r w e :
  task_cached t r w = None -> call_outcome t r w = Raised e ->
  component t r w =
    (Ok (empty_value t),
     note_error (error_label t ++ str_exn e)
       (note_request (task_request t r) w)).
Proof. intros Hmiss Hcall. by rewrite component_unfold, Hmiss, Hcall. Qed.

Lemma component_succeeds t r w value :
  task_succeeds_with t r w value ->
  component t r w =
    (Ok value,
     match task_cache_key t r with
     | Some key => set_cache key value (note_request (task_request t r) w)
     | None => note_request (task_request t r) w
     end).
Proof.
  intros (Hmiss & result & Hcall & Hpost).
  by rewrite component_unfold, Hmiss, Hcall; simpl; rewrite Hpost.
Qed.

Lemma component_hit t r w value :
  task_cached t r w = Some value -> component t r w = (Ok value, w).
Proof. intros Hhit. by rewrite component_unfold, Hhit. Qed.

Lemma times_issued_note_request q q' w :
  times_issued q (note_request q' w)
  = (times_issued q w + (if decide (q' = q) then 1 else 0))%nat.
Proof.
  unfold times_issued, note_request; simpl.
  rewrite filter_app, length_app. f_equal.
  rewrite filter_cons, filter_nil. by destruct (decide (q' = q)).
Qed.

Lemma empty_value_not_error_shaped t : ~ error_shaped (empty_value t).
Proof. intros [message Hm]. by destruct t. Qed.

Lemma call_outcome_view t r w1 w2 :
  view t r w1 = view t r w2 -> call_outcome t r w1 = call_outcome t r w2.
Proof. unfold view, call_outcome, answer. intros [= _ ->]. done. Qed.

(** The value a component returns depends on the state through the view
    only. *)
Lemma standalone_view t r w1 w2 :
  view t r w1 = view t r w2 -> standalone t r w1 = standalone t r w2.
Proof.
  intros Hv. unfold standalone. rewrite !component_unfold.
  rewrite (call_outcome_view _ _ _ _ Hv).
  injection Hv as -> _.
  destruct (task_cached t r w2); [done|]. simpl.
  by destruct (res_bind _ _).
Qed.

Lemma task_request_inj r t s : task_request t r = task_request s r -> t = s.
Proof. by destruct t, s. Qed.

Lemma task_cached_set_cache_ne t r key value w :
  task_cache_key t r <> Some key ->
  task_cached t r (set_cache key value w) = task_cached t r w.
Proof.
  unfold task_cached. destruct (task_cache_key t r) as [k|]; [|done].
  intros Hne. simpl. apply lookup_insert_ne. congruence.
Qed.

Lemma task_cache_key_ne r t s :
  keys_disjoint r -> t <> s -> is_Some (task_cache_key t r) ->
  task_cache_key s r <> task_cache_key t r.
Proof.
  unfold keys_disjoint. intros Hd Hne [k Hk].
  destruct t, s; simpl in *; congruence.
Qed.

(** A task leaves the view of every other task as it was. *)
Lemma component_frame t s r w value w' :
  keys_disjoint r -> t <> s ->
  component t r w = (Ok value, w') -> view s r w' = view s r w.
Proof.
  intros Hd Hne. rewrite component_unfold.
  assert (Hq : times_issued (task_request s r)
                 (note_request (task_request t r) w)
               = times_issued (task_request s r) w).
  { rewrite times_issued_note_request.
    destruct (decide _) as [Heq|]; [|lia].
    by apply task_request_inj in Heq. }
  destruct (task_cached t r w); [by intros [= _ <-]|]. simpl.
  destruct (res_bind _ _).
  - intros [= _ <-]. unfold view.
    destruct (task_cache_key t r) as [key|] eqn:Hk.
    + rewrite task_cached_set_cache_ne.
      * by f_equal.
      * rewrite <- Hk. apply task_cache_key_ne; eauto.
    + by f_equal.
  - intros [= _ <-]. unfold view. by f_equal.
Qed.

(** A task whose model call fails changes the request log and the error
    log only: what any other task sees stays as it was, whatever the
    cache keys. *)
Lemma failed_component_frame t s r w value w' :
  model_call_fails t r w -> t <> s ->
  component t r w = (Ok value, w') -> view s r w' = view s r w.
Proof.
  intros (Hmiss & e & Hcall) Hne.
  rewrite (component_fails t r w e Hmiss Hcall). intros [= _ <-].
  unfold view. f_equal.
  change (times_issued (task_request s r)
            (note_request (task_request t r) w)
          = times_issued (task_request s r) w).
  rewrite times_issued_note_request.
  destruct (decide _) as [Heq|]; [|lia].
  by apply task_request_inj in Heq.
Qed.

End component_facts.

(** ** The collecting loop *)

Section collect_facts.

Lemma collect_Ok kvs results :
  collect (Ok <$> kvs) results = Ok (assign_all results kvs).
Proof.
  revert results. induction kvs as [|[key value] kvs IH]; intros results.
  - done.
  - simpl. apply IH.
Qed.

Lemma assign_all_lookup_notin kvs results key :
  key ∉ kvs.*1 -> assign_all results kvs !! key = results !! key.
Proof.
  revert results. induction kvs as [|[k v] kvs IH]; intros results Hn.
  - done.
  - simpl in *. apply not_elem_of_cons in Hn as [Hne Hn].
    unfold assign_all in *. simpl. rewrite IH by done.
    by apply lookup_insert_ne.
Qed.

Lemma assign_all_lookup_in kvs results key value :
  NoDup kvs.*1 -> (key, value) ∈ kvs ->
  assign_all results kvs !! key = Some value.
Proof.
  revert results. induction kvs as [|[k v] kvs IH]; intros results Hnd Hin.
  - by apply elem_of_nil in Hin.
  - simpl in Hnd. apply NoDup_cons in Hnd as [Hk Hnd].
    apply elem_of_cons in Hin as [[= -> ->]|Hin].
    + unfold assign_all. simpl.
      fold (assign_all (<[k:=v]> results) kvs).
      rewrite assign_all_lookup_notin by done.
      apply lookup_insert_eq.
    + unfold assign_all in *. simpl. by apply IH.
Qed.

(** With distinct keys the order of the assignments does not matter. *)
Lemma assign_all_perm kvs1 kvs2 results :
  NoDup kvs1.*1 -> kvs1 ≡ₚ kvs2 ->
  assign_all results kvs1 = assign_all results kvs2.
Proof.
  intros Hnd Hp. apply map_eq. intros key.
  assert (Hnd2 : NoDup kvs2.*1) by by rewrite <- Hp.
  destruct (decide (key ∈ kvs1.*1)) as [Hin|Hn].
  - apply list_elem_of_fmap in Hin as ([k v] & -> & Hin). simpl.
    rewrite (assign_all_lookup_in kvs1 _ k v) by done.
    rewrite (assign_all_lookup_in kvs2 _ k v); [done|done|].
    by rewrite <- Hp.
  - rewrite assign_all_lookup_notin by done.
    rewrite assign_all_lookup_notin; [done|]. by rewrite <- Hp.
Qed.

End collect_facts.

(** ** The pool *)

Section pool_facts.

Context `{!Collaborators}.

Lemma tag_inj t s : tag t = tag s -> t = s.
Proof. by destruct t, s. Qed.

Lemma tag_not_errors t : tag t <> "errors".
Proof. by destruct t. Qed.

(** A runner never raises: its [except] branch is dead, the component
    has caught everything already. *)
Lemma run_task_standalone t r w :
  exists w',
    component t r w = (Ok (standalone t r w), w') /\
    run_task t r w = (Ok (tag t, standalone t r w), w').
Proof.
  destruct (component_standalone t r w) as [w' Hc].
  exists w'. split; [done|].
  unfold run_task, try_except, bind. by rewrite Hc.
Qed.

Lemma run_workers_tagged r order w :
  exists fs w', run_workers r order w = (Ok fs, w') /\ Forall tagged fs.
Proof.
  revert w. induction order as [|t order IH]; intros w.
  - exists [], w. by split.
  - destruct (run_task_standalone t r w) as (w1 & _ & Hrun).
    destruct (IH w1) as (fs & w' & Hrest & Hfs).
    exists ((t, Ok (tag t, standalone t r w)) :: fs), w'. split.
    + simpl. unfold bind, worker. rewrite Hrun, Hrest. done.
    + constructor; [|done]. by eexists.
Qed.

(** With distinct cache keys each task computes, whatever ran before it,
    the value it computes on its own in the state the pool started in. *)
Lemma run_workers_standalone r order w :
  keys_disjoint r -> NoDup order ->
  exists w',
    run_workers r order w
    = (Ok ((fun t => (t, Ok (tag t, standalone t r w))) <$> order), w') /\
    forall s, s ∉ order -> view s r w' = view s r w.
Proof.
  intros Hd. revert w. induction order as [|t order IH]; intros w Hnd.
  - exists w. by split.
  - apply NoDup_cons in Hnd as [Ht Hnd].
    destruct (run_task_standalone t r w) as (w1 & Hc & Hrun).
    destruct (IH w1 Hnd) as (w' & Hrest & Hframe).
    exists w'. split.
    + simpl. unfold bind, worker, ret. rewrite Hrun, Hrest.
      do 3 f_equal. apply list_fmap_ext. intros i s Hs.
      do 3 f_equal. apply standalone_view.
      eapply component_frame; [done| |done].
      intros ->. apply Ht. by eapply list_elem_of_lookup_2.
    + intros s Hs. apply not_elem_of_cons in Hs as [Hne Hs].
      rewrite Hframe by done.
      eapply component_frame; [done| |done]. congruence.
Qed.

Lemma future_of_fmap (g : task -> future) order t :
  t ∈ order -> future_of ((fun t => (t, g t)) <$> order) t = Some (g t).
Proof.
  unfold future_of. induction order as [|s order IH]; intros Hin.
  - by apply elem_of_nil in Hin.
  - simpl. destruct (decide (s = t)) as [->|Hne].
    + by rewrite bool_decide_eq_true_2.
    + rewrite bool_decide_eq_false_2 by done.
      apply IH. by apply elem_of_cons in Hin as [->|].
Qed.

Lemma as_completed_fmap (g : task -> future) order completion :
  completion ⊆ order ->
  as_completed completion ((fun t => (t, g t)) <$> order)
  = g <$> completion.
Proof.
  unfold as_completed. induction completion as [|t c IH]; intros Hsub.
  - done.
  - simpl. rewrite future_of_fmap by set_solver.
    simpl. f_equal. apply IH. set_solver.
Qed.

Lemma future_of_elem fs t f : future_of fs t = Some f -> (t, f) ∈ fs.
Proof.
  unfold future_of. destruct (find _ fs) as [[t' f']|] eqn:Hfind; [|done].
  intros [= <-]. apply find_some in Hfind as [Hin Ht].
  apply bool_decide_eq_true_1 in Ht. simpl in Ht. subst t'.
  by apply list_elem_of_In.
Qed.

Lemma handed_in_tag fs t kv :
  Forall tagged fs -> handed_in fs t = Some kv -> kv.1 = tag t.
Proof.
  intros Hfs. unfold handed_in.
  destruct (future_of fs t) as [[kv'|]|] eqn:Hf; [|done..].
  intros [= ->]. apply future_of_elem in Hf.
  rewrite Forall_forall in Hfs. destruct (Hfs _ Hf) as [value Hv].
  simpl in Hv. by injection Hv as ->.
Qed.

Lemma as_completed_tagged fs completion :
  Forall tagged fs ->
  as_completed completion fs = Ok <$> omap (handed_in fs) completion.
Proof.
  intros Hfs. unfold as_completed, handed_in.
  induction completion as [|t c IH]; [done|]. csimpl.
  destruct (future_of fs t) as [[kv|e]|] eqn:Hf; csimpl.
  - by rewrite IH.
  - apply future_of_elem in Hf. rewrite Forall_forall in Hfs.
    by destruct (Hfs _ Hf).
  - done.
Qed.

Lemma handed_in_keys_NoDup fs completion :
  Forall tagged fs -> NoDup completion ->
  NoDup (omap (handed_in fs) completion).*1.
Proof.
  intros Hfs. induction 1 as [|t c Ht Hnd IH]; csimpl.
  - constructor.
  - destruct (handed_in fs t) as [kv|] eqn:Hkv; [|done]. csimpl.
    constructor; [|done].
    intros Hin. apply list_elem_of_fmap in Hin as (kv' & Heq & Hin).
    apply list_elem_of_omap in Hin as (s & Hs & Hkv').
    apply handed_in_tag in Hkv, Hkv'; [|done..].
    assert (s = t) by (apply tag_inj; congruence). by subst s.
Qed.

(** The aggregator never raises, whatever the schedule. *)
Lemma generate_all_parallel_unfold s r w :
  exists fs w',
    run_workers r (run_order s) w = (Ok fs, w') /\ Forall tagged fs /\
    generate_all_parallel s r w
    = (Ok (assign_all initial_results
             (omap (handed_in fs) (completion_order s))), w').
Proof.
  destruct (run_workers_tagged r (run_order s) w) as (fs & w' & Hrun & Hfs).
  exists fs, w'. split; [done|]. split; [done|].
  unfold generate_all_parallel, bind, lift_res. rewrite Hrun.
  by rewrite as_completed_tagged, collect_Ok.
Qed.

Lemma valid_schedule_NoDup s :
  valid_schedule s -> NoDup (run_order s) /\ NoDup (completion_order s).
Proof.
  assert (NoDup all_tasks) by (by apply (bool_decide_unpack _)).
  intros [-> ->]. done.
Qed.

Lemma valid_schedule_all s t :
  valid_schedule s -> t ∈ run_order s /\ t ∈ completion_order s.
Proof.
  assert (t ∈ all_tasks) by (destruct t; set_solver).
  intros [-> ->]. done.
Qed.

(** Under a schedule that runs and completes each task once, and with
    distinct cache keys, every field holds what its component returns on
    its own, and nothing is added to the error list. *)
Lemma generate_all_parallel_fields s r w :
  valid_schedule s -> keys_disjoint r ->
  exists results w',
    generate_all_parallel s r w = (Ok results, w') /\
    results !! "errors" = Some (JList []) /\
    forall t, results !! tag t = Some (standalone t r w).
Proof.
  intros Hs Hd.
  destruct (valid_schedule_NoDup s Hs) as [Hnr Hnc].
  destruct (run_workers_standalone r (run_order s) w Hd Hnr) as (w' & Hrun & _).
  set (g := fun t => (tag t, standalone t r w)).
  exists (assign_all initial_results (g <$> completion_order s)), w'.
  split; [|split].
  - unfold generate_all_parallel, bind, lift_res. rewrite Hrun.
    rewrite (as_completed_fmap (fun t => Ok (g t))).
    + rewrite (list_fmap_compose g Ok). by rewrite collect_Ok.
    + intros t _. by apply valid_schedule_all.
  - rewrite assign_all_lookup_notin; [done|].
    rewrite <- list_fmap_compose. intros Hin.
    apply list_elem_of_fmap in Hin as (t & Ht & _).
    by destruct t.
  - intros t. apply assign_all_lookup_in.
    + rewrite <- list_fmap_compose. apply NoDup_fmap_2; [|done].
      intros t1 t2. apply tag_inj.
    + apply list_elem_of_fmap. exists t. split; [done|].
      by apply valid_schedule_all.
Qed.

End pool_facts.

(** ** The ordinal and the calendar date *)

(** A year written by its place in the 400, 100 and 4 year cycles. *)
Lemma days_before_year_cycles a b c d :
  0 <= b <= 3 -> 0 <= c <= 24 -> 0 <= d <= 3 ->
  _days_before_year (400 * a + 100 * b + 4 * c + d + 1)
  = _DI400Y * a + _DI100Y * b + _DI4Y * c + 365 * d.
Proof.
  intros Hb Hc Hd. unfold _days_before_year, _DI400Y, _DI100Y, _DI4Y.
  replace (400 * a + 100 * b + 4 * c + d + 1 - 1)
    with (400 * a + 100 * b + 4 * c + d) by lia.
  Z.div_mod_to_equations. lia.
Qed.

Lemma is_leap_cycles a b c d :
  0 <= b <= 3 -> 0 <= c <= 24 -> 0 <= d <= 3 ->
  _is_leap (400 * a + 100 * b + 4 * c + d + 1)
  = (d =? 3) && (negb (c =? 24) || (b =? 3)).
Proof.
  intros Hb Hc Hd. unfold _is_leap.
  set (y := 400 * a + 100 * b + 4 * c + d + 1).
  assert (H4 : y mod 4 = (d + 1) mod 4).
  { unfold y. Z.div_mod_to_equations. lia. }
  assert (H100 : y mod 100 = (4 * c + d + 1) mod 100).
  { unfold y. Z.div_mod_to_equations. lia. }
  assert (H400 : y mod 400 = (100 * b + 4 * c + d + 1) mod 400).
  { unfold y. Z.div_mod_to_equations. lia. }
  rewrite H4, H100, H400.
  destruct (d =? 3) eqn:Ed; destruct (c =? 24) eqn:Ec;
    destruct (b =? 3) eqn:Eb;
    rewrite ?Z.eqb_eq, ?Z.eqb_neq in *; subst; simpl;
    repeat match goal with
    | |- context [?x =? 0] =>
        let E := fresh in destruct (x =? 0) eqn:E;
        rewrite ?Z.eqb_eq, ?Z.eqb_neq in E
    end; simpl; try reflexivity; exfalso;
    Z.div_mod_to_equations; lia.
Qed.
Lemma shiftr5 x : Z.shiftr x 5 = x / 32.
Proof. by rewrite Z.shiftr_div_pow2. Qed.

(** The month and the day within a year, from the number [r] of days
    gone by since its first day: whichever way the estimate of the month
    is corrected, the month is a real one, [p] days of the year precede
    it, and the day lies within it. *)
Lemma day_of_year_split (leap : bool) r (P : Z -> Z -> Prop) :
  0 <= r <= 364 ->
  (forall m p,
      1 <= m <= 12 ->
      p = _DAYS_BEFORE_MONTH m + (if (2 <? m) && leap then 1 else 0) ->
      1 <= r - p + 1 <= (if (m =? 2) && leap then 29 else _DAYS_IN_MONTH m) ->
      P m p) ->
  let m := Z.shiftr (r + 50) 5 in
  let preceding :=
    _DAYS_BEFORE_MONTH m + (if (2 <? m) && leap then 1 else 0) in
  if r <? preceding then
    P (m - 1)
      (preceding
       - (_DAYS_IN_MONTH (m - 1) + (if (m - 1 =? 2) && leap then 1 else 0)))
  else P m preceding.
Proof.
  intros Hr HP. cbv zeta. rewrite shiftr5.
  assert (Hm : 1 <= (r + 50) / 32 <= 12)
    by (Z.div_mod_to_equations; lia).
  assert (Hq : 32 * ((r + 50) / 32) <= r + 50 < 32 * ((r + 50) / 32) + 32)
    by (Z.div_mod_to_equations; lia).
  revert Hm Hq. generalize ((r + 50) / 32). intros m Hm Hq.
  apply month_cases in Hm.
  destruct Hm as [->|[->|[->|[->|[->|[->|[->|[->|[->|[->|[->| ->]]]]]]]]]]];
    destruct leap; simpl;
    match goal with
    | |- context [r <? ?p] =>
        destruct (r <? p) eqn:E;
        [apply Z.ltb_lt in E | apply Z.ltb_ge in E]
    end;
    apply HP; simpl; lia.
Qed.
Lemma ord2ymd_spec0 n0 :
  0 <= n0 ->
  toordinal (_ord2ymd (n0 + 1)) = n0 + 1 /\
  1 <= year (_ord2ymd (n0 + 1)) /\
  1 <= month (_ord2ymd (n0 + 1)) <= 12 /\
  1 <= day (_ord2ymd (n0 + 1))
    <= _days_in_month (year (_ord2ymd (n0 + 1))) (month (_ord2ymd (n0 + 1))).
Proof.
  intros H0. unfold _ord2ymd. cbv zeta.
  replace (n0 + 1 - 1) with n0 by lia.
  pose proof (Z.div_mod n0 _DI400Y ltac:(done)) as E1.
  pose proof (Z.mod_pos_bound n0 _DI400Y ltac:(done)) as B1.
  revert E1 B1.
  generalize (n0 / _DI400Y) (n0 mod _DI400Y). intros a r1 E1 B1.
  pose proof (Z.div_mod r1 _DI100Y ltac:(done)) as E2.
  pose proof (Z.mod_pos_bound r1 _DI100Y ltac:(done)) as B2.
  revert E2 B2.
  generalize (r1 / _DI100Y) (r1 mod _DI100Y). intros b r2 E2 B2.
  pose proof (Z.div_mod r2 _DI4Y ltac:(done)) as E3.
  pose proof (Z.mod_pos_bound r2 _DI4Y ltac:(done)) as B3.
  revert E3 B3.
  generalize (r2 / _DI4Y) (r2 mod _DI4Y). intros c r3 E3 B3.
  pose proof (Z.div_mod r3 365 ltac:(done)) as E4.
  pose proof (Z.mod_pos_bound r3 365 ltac:(done)) as B4.
  revert E4 B4.
  generalize (r3 / 365) (r3 mod 365). intros d r4 E4 B4.
  unfold _DI400Y, _DI100Y, _DI4Y in *.
  assert (Ha : 0 <= a) by lia.
  assert (Hb : 0 <= b <= 4) by lia.
  assert (Hc : 0 <= c <= 24) by lia.
  assert (Hd : 0 <= d <= 4) by lia.
  destruct (b =? 4) eqn:Eb; [apply Z.eqb_eq in Eb|apply Z.eqb_neq in Eb].
  - rewrite orb_true_r. simpl year; simpl month; simpl day.
    unfold toordinal, _ymd2ord, _days_before_month, _days_in_month.
    simpl year; simpl month; simpl day.
    replace (a * 400 + 1 + b * 100 + c * 4 + d - 1)
      with (400 * a + 100 * 3 + 4 * 24 + 3 + 1) by lia.
    rewrite days_before_year_cycles, is_leap_cycles by lia.
    unfold _DI400Y, _DI100Y, _DI4Y. simpl. lia.
  - rewrite orb_false_r.
    destruct (d =? 4) eqn:Ed; [apply Z.eqb_eq in Ed|apply Z.eqb_neq in Ed].
    + simpl year; simpl month; simpl day.
      unfold toordinal, _ymd2ord, _days_before_month, _days_in_month.
      simpl year; simpl month; simpl day.
      replace (a * 400 + 1 + b * 100 + c * 4 + d - 1)
        with (400 * a + 100 * b + 4 * c + 3 + 1) by lia.
      rewrite days_before_year_cycles, is_leap_cycles by lia.
      unfold _DI400Y, _DI100Y, _DI4Y.
      assert (c <> 24) by lia.
      replace (c =? 24) with false by (symmetry; by apply Z.eqb_neq).
      simpl. lia.
    + replace (a * 400 + 1 + b * 100 + c * 4 + d)
        with (400 * a + 100 * b + 4 * c + d + 1) by lia.
      set (y := 400 * a + 100 * b + 4 * c + d + 1).
      set (leap := (d =? 3) && (negb (c =? 24) || (b =? 3))).
      assert (Hleap : _is_leap y = leap) by (apply is_leap_cycles; lia).
      assert (Hdby : _days_before_year y
                     = 146097 * a + 36524 * b + 1461 * c + 365 * d)
        by (apply days_before_year_cycles; lia).
      assert (HP : forall m p,
                 1 <= m <= 12 ->
                 p = _DAYS_BEFORE_MONTH m
                     + (if (2 <? m) && leap then 1 else 0) ->
                 1 <= r4 - p + 1
                   <= (if (m =? 2) && leap then 29 else _DAYS_IN_MONTH m) ->
                 let dt := Date y m (r4 - p + 1) in
                 toordinal dt = n0 + 1 /\ 1 <= year dt /\
                 1 <= month dt <= 12 /\
                 1 <= day dt <= _days_in_month (year dt) (month dt)).
      { intros m p Hm Hp Hday. cbv zeta.
        unfold toordinal, _ymd2ord, _days_before_month, _days_in_month.
        simpl year; simpl month; simpl day.
        rewrite Hleap, Hdby, <- Hp.
        split; [lia|]. split; [unfold y; lia|]. split; [lia|]. exact Hday. }
      pose proof (day_of_year_split leap r4 _ ltac:(lia) HP) as Hsplit.
      cbv zeta in Hsplit. revert Hsplit.
      destruct (r4 <? _); intros Hsplit; exact Hsplit.
Qed.
Lemma ord2ymd_spec n :
  1 <= n ->
  toordinal (_ord2ymd n) = n /\
  1 <= year (_ord2ymd n) /\
  1 <= month (_ord2ymd n) <= 12 /\
  1 <= day (_ord2ymd n)
    <= _days_in_month (year (_ord2ymd n)) (month (_ord2ymd n)).
Proof.
  intros Hn. replace n with (n - 1 + 1) by lia. apply ord2ymd_spec0. lia.
Qed.

Lemma toordinal_le_max d : valid_date d -> toordinal d <= _MAXORDINAL.
Proof.
  intros (Hy & Hm & Hd).
  pose proof (ymd2ord_below_next_year _ _ _ Hm Hd) as Hbelow.
  pose proof (days_before_year_mono (year d + 1) 10000) as Hmono.
  unfold MAXYEAR in Hy. unfold toordinal.
  change (_days_before_year 10000) with _MAXORDINAL in Hmono. lia.
Qed.

(** Within the range of [datetime] the date of an ordinal is a [date]. *)
Lemma ord2ymd_valid n :
  1 <= n <= _MAXORDINAL -> valid_date (_ord2ymd n).
Proof.
  intros [Hlo Hhi].
  pose proof (ord2ymd_spec n Hlo) as Hspec. revert Hspec.
  generalize (_ord2ymd n). intros dt (Hord & Hy & Hm & Hd).
  split; [|done]. split; [done|].
  destruct (decide (year dt <= MAXYEAR)) as [|Hbig]; [done|].
  pose proof (ymd2ord_above_year (year dt) _ _ Hm (proj1 Hd)) as Habove.
  pose proof (days_before_year_mono 10000 (year dt)) as Hmono.
  unfold toordinal in Hord. unfold MAXYEAR in Hbig.
  change (_days_before_year 10000) with _MAXORDINAL in Hmono. lia.
Qed.

Lemma date_ltb_trichotomy a b :
  date_ltb a b = true \/ a = b \/ date_ltb b a = true.
Proof.
  destruct a as [ya ma da], b as [yb mb db]. unfold date_ltb. simpl.
  destruct (Z.lt_trichotomy ya yb) as [Hy|[->|Hy]].
  - left. apply Z.ltb_lt in Hy. by rewrite Hy.
  - rewrite Z.ltb_irrefl, Z.eqb_refl. simpl.
    destruct (Z.lt_trichotomy ma mb) as [Hm|[->|Hm]].
    + left. apply Z.ltb_lt in Hm. by rewrite Hm.
    + rewrite Z.ltb_irrefl, Z.eqb_refl. simpl.
      destruct (Z.lt_trichotomy da db) as [Hd|[->|Hd]].
      * left. by apply Z.ltb_lt.
      * right. by left.
      * right. right. by apply Z.ltb_lt.
    + right. right. apply Z.ltb_lt in Hm. by rewrite Hm.
  - right. right. apply Z.ltb_lt in Hy. by rewrite Hy.
Qed.

(** Two dates with the same ordinal are the same date. *)
Lemma toordinal_inj a b :
  valid_date a -> valid_date b -> toordinal a = toordinal b -> a = b.
Proof.
  intros Ha Hb Heq.
  destruct (date_ltb_trichotomy a b) as [Hlt|[->|Hlt]]; [|done|].
  - pose proof (date_ltb_toordinal a b Ha Hb Hlt). lia.
  - pose proof (date_ltb_toordinal b a Hb Ha Hlt). lia.
Qed.

(** The order on dates is exactly the order on ordinals. *)
Lemma date_ltb_iff a b :
  valid_date a -> valid_date b ->
  date_ltb a b = true <-> toordinal a < toordinal b.
Proof.
  intros Ha Hb. split; [by apply date_ltb_toordinal|].
  intros Hlt. destruct (date_ltb_trichotomy a b) as [|[->|Hgt]]; [done|lia|].
  pose proof (date_ltb_toordinal b a Hb Ha Hgt). lia.
Qed.

Lemma ord2ymd_toordinal d : valid_date d -> _ord2ymd (toordinal d) = d.
Proof.
  intros Hd.
  pose proof (toordinal_pos d Hd). pose proof (toordinal_le_max d Hd).
  apply toordinal_inj; [by apply ord2ymd_valid|done|].
  by apply ord2ymd_spec.
Qed.

(** Adding days: the result is a date, [i] days further on. *)
Lemma add_days_spec d i :
  valid_date d ->
  1 <= toordinal d + i <= _MAXORDINAL ->
  exists d',
    add_days d i = Some d' /\ valid_date d' /\
    toordinal d' = toordinal d + i.
Proof.
  intros Hd Hr. exists (_ord2ymd (toordinal d + i)).
  split; [by apply add_days_in_range|].
  split; [by apply ord2ymd_valid|]. apply ord2ymd_spec. lia.
Qed.

Lemma add_days_out_of_range d i :
  ~ 1 <= toordinal d + i <= _MAXORDINAL -> add_days d i = None.
Proof.
  intros Hr. unfold add_days.
  destruct (1 <=? toordinal d + i) eqn:E1; [|done].
  destruct (toordinal d + i <=? _MAXORDINAL) eqn:E2; [|done].
  apply Z.leb_le in E1, E2. lia.
Qed.

Lemma add_days_0 d : valid_date d -> add_days d 0 = Some d.
Proof.
  intros Hd.
  pose proof (toordinal_pos d Hd). pose proof (toordinal_le_max d Hd).
  rewrite add_days_in_range by lia.
  by rewrite Z.add_0_r, ord2ymd_toordinal.
Qed.
Lemma digit_val_digit n : digit_val (digit n) = Some (n mod 10).
Proof.
  unfold digit_val, digit.
  pose proof (Z.mod_pos_bound n 10 ltac:(done)) as Hb.
  rewrite nat_ascii_embedding by lia.
  rewrite Nat2Z.inj_add, Z2Nat.id by lia. 
  change (Z.of_nat 48) with 48.
  replace (48 <=? 48 + n mod 10) with true by (symmetry; apply Z.leb_le; lia).
  replace (48 + n mod 10 <=? 57) with true by (symmetry; apply Z.leb_le; lia).
  simpl. f_equal. lia.
Qed.

Lemma valid_date_validb d : valid_date d -> valid_dateb d = true.
Proof.
  unfold valid_dateb, valid_date. rewrite !andb_true_iff, !Z.leb_le. tauto.
Qed.

Lemma days_in_month_le_31 y m : _days_in_month y m <= 31.
Proof.
  unfold _days_in_month. destruct (_ && _); [lia|].
  unfold _DAYS_IN_MONTH.
  repeat match goal with |- context [match ?x with _ => _ end] => destruct x end;
    lia.
Qed.

(** The text [strftime('%Y-%m-%d')] writes is read back by
    [fromisoformat] as the same date. *)
Lemma fromisoformat_strftime_ymd d :
  valid_date d -> fromisoformat (strftime_ymd d) = Some d.
Proof.
  intros Hd. pose proof Hd as (Hy & Hm & Hday).
  pose proof (days_in_month_le_31 (year d) (month d)) as H31.
  unfold MINYEAR, MAXYEAR in Hy.
  unfold strftime_ymd, pad4, pad2.
  cbv [String.append fromisoformat].
  change (is_dash "-" && is_dash "-") with true. cbv iota.
  rewrite !digit_val_digit. csimpl.
  assert (Hyear : year d / 1000 mod 10 * 1000 + year d / 100 mod 10 * 100
                  + year d / 10 mod 10 * 10 + year d mod 10 = year d)
    by (Z.div_mod_to_equations; lia).
  assert (Hmonth : month d / 10 mod 10 * 10 + month d mod 10 = month d)
    by (Z.div_mod_to_equations; lia).
  assert (Hdd : day d / 10 mod 10 * 10 + day d mod 10 = day d)
    by (Z.div_mod_to_equations; lia).
  rewrite Hyear, Hmonth, Hdd.
  destruct d as [y m dd]. simpl. by rewrite valid_date_validb.
Qed.

(** The text of a date has ten characters. *)
Lemma strftime_ymd_length d : String.length (strftime_ymd d) = 10%nat.
Proof.
  unfold strftime_ymd, pad4, pad2.
  cbv [String.append String.length]. reflexivity.
Qed.

(** The name [strftime('%A')] writes is the one the table gives, counting
    the days from the Monday 0001-01-01. *)
Lemma strftime_A_weekdays d :
  WEEKDAYS !! Z.to_nat ((toordinal d - 1) mod 7) = Some (strftime_A d).
Proof.
  unfold strftime_A, weekday.
  replace ((toordinal d + 6) mod 7) with ((toordinal d - 1) mod 7)
    by (Z.div_mod_to_equations; lia).
  pose proof (Z.mod_pos_bound (toordinal d - 1) 7 ltac:(done)) as Hb.
  revert Hb. generalize ((toordinal d - 1) mod 7). intros k Hk.
  assert (k = 0 \/ k = 1 \/ k = 2 \/ k = 3 \/ k = 4 \/ k = 5 \/ k = 6)
    as [->|[->|[->|[->|[->|[->| ->]]]]]] by lia; reflexivity.
Qed.

(** ** The form *)

(** C10. For every calendar month [m] of 1..12 the index [(m mod 12) / 3]
    lies in 0..3, so the season computed before the core is called is one
    of winter, spring, summer and fall; December to February give winter,
    March to May spring, June to August summer, September to November
    fall. *)
Theorem season_of_month_table m :
  1 <= m <= 12 ->
  0 <= season_index m <= 3 /\
  season_of_month m = Some (season_table m) /\
  season_table m ∈ SEASONS.
Proof.
  intros Hm. split; [by apply season_index_range|].
  split; [by apply season_of_month_in_range|].
  apply list_elem_of_lookup. exists (Z.to_nat (season_index m)).
  rewrite <- season_of_month_in_range by done. done.
Qed.

(** The season handed to the core is the one of the month of the start
    date. *)
Lemma main_submit_season f r :
  valid_date (form_start_date f) ->
  main_submit f = CoreInvoked r ->
  season r = season_table (month (form_start_date f)).
Proof.
  intros (_ & Hm & _). unfold main_submit.
  destruct (_ || _); [done|]. destruct (date_leb _ _); [done|].
  rewrite (season_of_month_in_range _ Hm). by intros [= <-].
Qed.


(** ** The memoised operations *)

Section memoised_operations.

Context `{!Collaborators}.

Lemma string_app_assoc (a b c : string) : (a ++ b) ++ c = a ++ (b ++ c).
Proof.
  induction a as [|x a IH]; [done|].
  change (String x ((a ++ b) ++ c) = String x (a ++ b ++ c)). by f_equal.
Qed.

(** An underscore inside an argument reads as a separator: moving it
    from the end of one argument to the start of the next keeps the key. *)
Lemma cache_key_shift func_name a b c rest :
  _get_cache_key func_name ((a ++ "_" ++ b) :: c :: rest)
  = _get_cache_key func_name (a :: (b ++ "_" ++ c) :: rest).
Proof.
  unfold _get_cache_key. f_equal. f_equal. f_equal.
  assert (Hjoin : forall x y l,
             join "_" (x :: y :: l) = x ++ "_" ++ join "_" (y :: l)) by done.
  destruct rest as [|d rest]; rewrite !Hjoin;
    change (join "_" [c]) with c; by rewrite !string_app_assoc.
Qed.

(** C9. The cache key is not injective in the argument list: under one
    operation name the arguments ("a_b", "c") and ("a", "b_c") differ and
    have the same key, the arguments being joined with underscores before
    hashing.  So a packing list fetched for destination "a_b" in season
    "c" is what a later call for destination "a" in season "b_c" returns,
    without asking the model. *)
Theorem cache_key_not_injective
    (func_name : string) (days1 days2 : Z) (activities : list string)
    (w : world) (value : json) :
  ["a_b"; "c"] <> ["a"; "b_c"] /\
  _get_cache_key func_name ["a_b"; "c"]
  = _get_cache_key func_name ["a"; "b_c"] /\
  (_cache w
     !! _get_cache_key "packing" ["a_b"; "c"; str_list activities] = None ->
   answer (packing_request "a_b" days1 "c" activities) w = Ok value ->
   exists w1,
     get_packing_list "a_b" days1 "c" activities w = (Ok value, w1) /\
     get_packing_list "a" days2 "b_c" activities w1 = (Ok value, w1)).
Proof.
  split; [done|]. split; [apply (cache_key_shift _ "a" "b" "c" [])|].
  intros Hmiss Hcall.
  set (r1 := {| origin := ""; destination := "a_b"; days := days1;
                travelers := 0; preferences := activities;
                budget_level := ""; season := "c"; start_date := "" |}).
  set (r2 := {| origin := ""; destination := "a"; days := days2;
                travelers := 0; preferences := activities;
                budget_level := ""; season := "b_c"; start_date := "" |}).
  assert (Hs : task_succeeds_with Packing r1 w value).
  { split; [done|]. by exists value. }
  apply component_succeeds in Hs. simpl in Hs.
  eexists. split; [exact Hs|].
  apply (component_hit Packing r2). unfold task_cached. simpl.
  assert (Hk : _get_cache_key "packing" ["a"; "b_c"; str_list activities]
               = _get_cache_key "packing" ["a_b"; "c"; str_list activities])
    by (symmetry; apply (cache_key_shift _ "a" "b" "c" [_])).
  rewrite Hk. apply lookup_insert_eq.
Qed.

(** C3. Two calls in a row of a memoised operation with the same
    arguments, the first of which reaches the model and succeeds: the
    first call sends one request, the second sends none and returns the
    value the first one stored, leaving the state as it was.  The tasks
    with a cache key are the memoised operations: [component Insights r]
    is [get_destination_insights (destination r)] and
    [component Packing r] is [get_packing_list (destination r) (days r)
    (season r) (preferences r)]. *)
Theorem memoised_call_not_repeated t r w key value :
  task_cache_key t r = Some key ->
  task_succeeds_with t r w value ->
  exists w1,
    component t r w = (Ok value, w1) /\
    issued w1 = (issued w ++ [task_request t r])%list /\
    _cache w1 !! key = Some value /\
    component t r w1 = (Ok value, w1).
Proof.
  intros Hkey Hs. apply component_succeeds in Hs. rewrite Hkey in Hs.
  eexists. split; [exact Hs|]. split; [done|].
  assert (Hstored :
    _cache (set_cache key value (note_request (task_request t r) w)) !! key
    = Some value) by apply lookup_insert_eq.
  split; [done|].
  apply component_hit. unfold task_cached. by rewrite Hkey.
Qed.

(** C4. A call of a memoised operation whose model call raises or whose
    answer does not parse leaves the cache as it was, so no entry exists
    for the key, and the next call with the same arguments sends the
    request again. *)
Theorem failed_call_not_cached t r w key :
  task_cache_key t r = Some key ->
  model_call_fails t r w ->
  exists w1,
    component t r w = (Ok (JObj []), w1) /\
    _cache w1 = _cache w /\
    _cache w1 !! key = None /\
    exists value w2,
      component t r w1 = (Ok value, w2) /\
      issued w2 = (issued w ++ [task_request t r; task_request t r])%list.
Proof.
  intros Hkey (Hmiss & e & Hcall).
  pose proof (component_fails t r w e Hmiss Hcall) as Hrun.
  assert (Hempty : empty_value t = JObj []) by (by destruct t).
  rewrite Hempty in Hrun.
  eexists. split; [exact Hrun|]. split; [done|].
  assert (Hmiss' : _cache w !! key = None).
  { unfold task_cached in Hmiss. by rewrite Hkey in Hmiss. }
  split; [done|].
  set (w1 := note_error _ _).
  assert (Hmiss1 : task_cached t r w1 = None) by done.
  rewrite component_unfold, Hmiss1. simpl.
  destruct (res_bind _ _); eexists _, _; (split; [done|]).
  - rewrite Hkey. simpl. by rewrite <- app_assoc.
  - simpl. by rewrite <- app_assoc.
Qed.

(** The reading of C7 fails when the budget call raises: the component
    returns the empty dictionary. *)
Lemma budget_failure_not_error_shaped :
  @model_call_fails (demo all_down) Budget paris empty_world /\
  ~ @returns_error_object (demo all_down) Budget paris empty_world.
Proof.
  split.
  - split; [done|]. by eexists.
  - intros (value & w' & Hrun & Hshape). vm_compute in Hrun.
    injection Hrun as <- _. by destruct Hshape.
Qed.

(** C7, amended. A component called on its own whose model call fails
    returns the empty value ([{}], and [[]] for the itinerary), which is
    not of the shape [{'error': message}]; the message goes to the log
    under the name of the component. *)
Theorem failed_component_returns_empty t r w e :
  task_cached t r w = None ->
  call_outcome t r w = Raised e ->
  exists w',
    component t r w = (Ok (empty_value t), w') /\
    ~ error_shaped (empty_value t) /\
    logged w' = (logged w ++ [(error_label t ++ str_exn e)%string])%list /\
    _cache w' = _cache w.
Proof.
  intros Hmiss Hcall. eexists. split.
  - by apply component_fails.
  - split; [apply empty_value_not_error_shaped|done].
Qed.

(** C2. Whatever entries the itinerary call returns, and whatever [date]
    or [day] they carry, the entry at position [i] comes back with [date]
    set to the day [i] days after the start date, written YYYY-MM-DD (ten
    characters that read back as that day), and [day_of_week] set to the
    full weekday name of that day; every other field, [day] included,
    stays as the model gave it.  The entries are JSON objects, the start
    date reads as a date of the year 1000 or later, and the last day
    lies within the range of [datetime]. *)
Theorem itinerary_dates_follow_position r w result entries start :
  fromisoformat (start_date r) = Some start ->
  1000 <= year start ->
  call_outcome Itinerary r w = Ok result ->
  result_get_itinerary result = Ok (JList entries) ->
  Forall (fun e => is_obj e = true) entries ->
  toordinal start + Z.of_nat (length entries) - 1 <= _MAXORDINAL ->
  exists entries' w',
    create_daily_itinerary (destination r) (origin r) (days r)
      (preferences r) (budget_level r) (start_date r) w
    = (Ok (JList entries'), w') /\
    length entries' = length entries /\
    forall (i : nat) fields,
      entries !! i = Some (JObj fields) ->
      exists day_date text name fields',
        add_days start (Z.of_nat i) = Some day_date /\
        valid_date day_date /\
        1000 <= year day_date /\
        toordinal day_date = toordinal start + Z.of_nat i /\
        (i = 0%nat -> day_date = start) /\
        entries' !! i = Some (JObj fields') /\
        dict_get "date" fields' = Some (JStr text) /\
        text = strftime_ymd day_date /\
        String.length text = 10%nat /\
        fromisoformat text = Some day_date /\
        dict_get "day_of_week" fields' = Some (JStr name) /\
        name = strftime_A day_date /\
        WEEKDAYS !! Z.to_nat ((toordinal day_date - 1) mod 7) = Some name /\
        forall k, k <> "date" -> k <> "day_of_week" ->
          dict_get k fields' = dict_get k fields.
Proof.
  intros Hstart Hyear Hcall Hget Hobj Hmax.
  pose proof (fromisoformat_valid _ _ Hstart) as Hvalid.
  pose proof (toordinal_pos _ Hvalid) as Hpos.
  destruct (ensure_dates_spec (start_date r) start entries 0 Hstart Hobj)
    as (entries' & Hrun & Hlen & Hat); [lia..|].
  assert (Hs : task_succeeds_with Itinerary r w (JList entries')).
  { split; [done|]. exists result. split; [done|].
    simpl. rewrite Hget. simpl. by rewrite Hrun. }
  apply component_succeeds in Hs. simpl in Hs.
  eexists _, _. split; [exact Hs|]. split; [done|].
  intros i fields Hi.
  destruct (Hat i fields Hi) as (day_date & Hday & Hentry).
  apply lookup_lt_Some in Hi.
  destruct (add_days_spec start (0 + Z.of_nat i) Hvalid)
    as (day_date' & Hday' & Hdv & Hord); [lia|].
  rewrite Hday in Hday'. injection Hday' as <-.
  exists day_date, (strftime_ymd day_date), (strftime_A day_date),
    (dated day_date fields).
  split; [done|]. split; [done|]. split.
  { destruct (Z.le_gt_cases (year start) (year day_date)) as [|Hlt]; [lia|].
    assert (Hbefore : date_ltb day_date start = true).
    { unfold date_ltb. apply Z.ltb_lt in Hlt. by rewrite Hlt. }
    pose proof (date_ltb_toordinal _ _ Hdv Hvalid Hbefore). lia. }
  split; [lia|].
  split; [intros ->; apply toordinal_inj; [done..|simpl in Hord; lia]|].
  split; [done|]. split; [apply dated_date|]. split; [done|].
  split; [apply strftime_ymd_length|].
  split; [by apply fromisoformat_strftime_ymd|].
  split; [apply dated_day_of_week|]. split; [done|].
  split; [apply strftime_A_weekdays|].
  intros k. apply dated_other.
Qed.

End memoised_operations.

(** ** The aggregator *)

Section aggregator_results.

Context `{!Collaborators}.

Lemma standalone_fails t r w :
  model_call_fails t r w -> standalone t r w = empty_value t.
Proof.
  intros (Hmiss & e & Hcall). unfold standalone.
  by rewrite (component_fails t r w e).
Qed.

Lemma standalone_succeeds t r w value :
  task_succeeds_with t r w value -> standalone t r w = value.
Proof.
  intros Hs. unfold standalone. by rewrite (component_succeeds t r w value).
Qed.

(** C1, amended. In a run of the aggregator in which the model call of
    one task fails and the other three tasks succeed, the field of the
    failed task holds the empty value of its component ([{}], and [[]] for
    the itinerary), the error list stays empty, and the other three
    fields hold the values of their tasks. *)
Theorem failed_task_field_is_empty s r w t (values : task -> json) :
  valid_schedule s -> keys_disjoint r ->
  model_call_fails t r w ->
  (forall t', t' <> t -> task_succeeds_with t' r w (values t')) ->
  exists results w',
    generate_all_parallel s r w = (Ok results, w') /\
    results !! tag t = Some (empty_value t) /\
    results !! "errors" = Some (JList []) /\
    forall t', t' <> t -> results !! tag t' = Some (values t').
Proof.
  intros Hs Hd Hfail Hsib.
  destruct (generate_all_parallel_fields s r w Hs Hd)
    as (results & w' & Hrun & Herr & Hfield).
  exists results, w'. split; [done|]. split; [|split; [done|]].
  - by rewrite Hfield, standalone_fails.
  - intros t' Hne. rewrite Hfield. f_equal.
    by apply standalone_succeeds, Hsib.
Qed.

(** C5. Whatever the request, the schedule and the outcomes of the four
    model calls, the aggregator returns its dictionary and raises
    nothing.  Under a schedule that runs and completes each task once,
    with the two cache keys distinct, every field holds what its
    component returns when called alone in the starting state, whether
    the other tasks fail or succeed, and the error list is empty. *)
Theorem generate_all_parallel_contains_failures s r w :
  exists results w',
    generate_all_parallel s r w = (Ok results, w') /\
    (valid_schedule s -> keys_disjoint r ->
     results !! "errors" = Some (JList []) /\
     forall t, results !! tag t = Some (standalone t r w)).
Proof.
  destruct (generate_all_parallel_unfold s r w)
    as (fs & w' & _ & _ & Hrun).
  eexists _, w'. split; [exact Hrun|]. intros Hs Hd.
  destruct (generate_all_parallel_fields s r w Hs Hd)
    as (results & w'' & Hrun' & Herr & Hfield).
  rewrite Hrun in Hrun'. injection Hrun' as -> _. done.
Qed.

(** The futures of the pool are those of the tasks run, in the order in
    which they ran. *)
Lemma run_workers_tasks r order w fs w' :
  run_workers r order w = (Ok fs, w') -> fs.*1 = order.
Proof.
  revert w fs w'. induction order as [|t order IH]; intros w fs w'.
  - by intros [= <- _].
  - simpl. unfold bind, worker.
    destruct (run_task t r w) as [out w1].
    destruct (run_workers r order w1) as [[rest|e] w2] eqn:Hrest; [|done].
    intros [= <- _]. simpl. f_equal. by eapply IH.
Qed.

(** C6. With the outcomes of the four tasks fixed, the aggregator returns
    the same dictionary and leaves the same state whatever the order in
    which the tasks complete: a result is filed under the tag it carries,
    not under its place in the order of arrival.  Each future of the pool
    holds a pair under the tag of its own task, and the field of that
    tag holds the value of that pair; the field of a task that was never
    run stays [None], and the error list stays empty. *)
Theorem completion_order_irrelevant r w run c1 c2 :
  c1 ≡ₚ all_tasks -> c2 ≡ₚ all_tasks ->
  generate_all_parallel (Schedule run c1) r w
  = generate_all_parallel (Schedule run c2) r w /\
  exists fs results w',
    run_workers r run w = (Ok fs, w') /\
    fs.*1 = run /\
    generate_all_parallel (Schedule run c1) r w = (Ok results, w') /\
    results !! "errors" = Some (JList []) /\
    forall t,
      match future_of fs t with
      | Some (Ok (key, value)) =>
          key = tag t /\ results !! tag t = Some value
      | Some (Raised _) => False
      | None => results !! tag t = Some JNull
      end.
Proof.
  intros H1 H2.
  destruct (generate_all_parallel_unfold (Schedule run c1) r w)
    as (fs & w1 & Hrun1 & Hfs & Hgap1).
  destruct (generate_all_parallel_unfold (Schedule run c2) r w)
    as (fs2 & w2 & Hrun2 & _ & Hgap2).
  simpl in *. rewrite Hrun1 in Hrun2. injection Hrun2 as <- <-.
  assert (Hnd : NoDup c1).
  { rewrite H1. by apply (bool_decide_unpack _). }
  assert (Hkeys : NoDup (omap (handed_in fs) c1).*1)
    by (by apply handed_in_keys_NoDup).
  split.
  { rewrite Hgap1, Hgap2. do 2 f_equal. apply assign_all_perm; [done|].
    apply omap_Permutation. by rewrite H1, H2. }
  exists fs, (assign_all initial_results (omap (handed_in fs) c1)), w1.
  split; [done|]. split; [by eapply run_workers_tasks|]. split; [done|].
  assert (Hfrom : forall kv,
             kv ∈ omap (handed_in fs) c1 ->
             exists s, handed_in fs s = Some kv /\ kv.1 = tag s).
  { intros kv Hkv. apply list_elem_of_omap in Hkv as (s & _ & Hs).
    exists s. split; [done|]. by eapply handed_in_tag. }
  split.
  { rewrite assign_all_lookup_notin; [done|].
    intros Hin. apply list_elem_of_fmap in Hin as (kv & Heq & Hkv).
    destruct (Hfrom kv Hkv) as (s & _ & Hs).
    destruct s; simpl in Hs; congruence. }
  intros t.
  assert (Hin : t ∈ c1).
  { rewrite H1. destruct t; set_solver. }
  destruct (future_of fs t) as [[[key value]|e]|] eqn:Hf.
  - assert (Hh : handed_in fs t = Some (key, value))
      by (unfold handed_in; by rewrite Hf).
    assert (Hkey : key = tag t) by apply (handed_in_tag fs t _ Hfs Hh).
    split; [done|]. subst key.
    apply assign_all_lookup_in; [done|].
    apply list_elem_of_omap. by exists t.
  - apply future_of_elem in Hf. rewrite Forall_forall in Hfs.
    by destruct (Hfs _ Hf).
  - rewrite assign_all_lookup_notin; [by destruct t|].
    intros Hk. apply list_elem_of_fmap in Hk as (kv & Heq & Hkv).
    destruct (Hfrom kv Hkv) as (s & Hs & Htag).
    assert (s = t) as -> by (apply tag_inj; congruence).
    unfold handed_in in Hs. by rewrite Hf in Hs.
Qed.

End aggregator_results.

(** The reading of C1 fails when the budget call raises and the other
    three succeed: nothing is added to the error list. *)
Lemma budget_failure_not_in_errors :
  valid_schedule shuffled /\
  @keys_disjoint (demo (only_down Budget)) paris /\
  @model_call_fails (demo (only_down Budget)) Budget paris empty_world /\
  (forall t, t <> Budget ->
     @task_succeeds_with (demo (only_down Budget)) t paris empty_world
       (@standalone (demo (only_down Budget)) t paris empty_world)) /\
  ~ @reports_failure_in_errors (demo (only_down Budget)) shuffled paris
      empty_world Budget
      (fun t => @standalone (demo (only_down Budget)) t paris empty_world).
Proof.
  set (C := demo (only_down Budget)).
  assert (Hs : valid_schedule shuffled).
  { split; by apply (bool_decide_unpack _). }
  assert (Hd : @keys_disjoint C paris) by done.
  split; [done|]. split; [done|]. split; [|split].
  - split; [done|]. by eexists.
  - intros t Ht. destruct t; [| |by destruct Ht|];
      (split; [reflexivity|]); eexists;
      (split; [vm_compute; reflexivity|]); vm_compute; reflexivity.
  - intros (results & w' & Hrun & _ & (errors & line & Herr & Hin & _) & _).
    destruct (@generate_all_parallel_fields C shuffled paris empty_world
                Hs Hd) as (results' & w'' & Hrun' & Herr' & _).
    rewrite Hrun in Hrun'. injection Hrun' as -> _.
    rewrite Herr in Herr'. injection Herr' as ->.
    by apply elem_of_nil in Hin.
Qed.

(** ** More on the components *)

Section component_extras.

Context `{!Collaborators}.

(** X1. A component never raises and tries the model once at most: on a
    cache hit it returns the entry and leaves the state alone; otherwise
    it sends exactly one request, and either returns its value with
    nothing logged or returns the empty value with one line logged. *)
Theorem component_single_attempt t r w :
  exists value w',
    component t r w = (Ok value, w') /\
    match task_cached t r w with
    | Some hit => value = hit /\ w' = w
    | None =>
        issued w' = (issued w ++ [task_request t r])%list /\
        (logged w' = logged w \/
         value = empty_value t /\
         exists e,
           logged w' = (logged w ++ [(error_label t ++ str_exn e)%string])%list)
    end.
Proof.
  rewrite component_unfold.
  destruct (task_cached t r w) as [hit|]; [by eexists _, _|]. simpl.
  destruct (res_bind _ _) as [value|e]; eexists _, _; (split; [done|]).
  - split; [by destruct (task_cache_key t r)|].
    left. by destruct (task_cache_key t r).
  - split; [done|]. right. split; [done|]. by exists e.
Qed.

Lemma component_cache t r w :
  _cache (component t r w).2 = _cache w \/
  exists key value,
    task_cache_key t r = Some key /\ _cache w !! key = None /\
    call_outcome t r w = Ok value /\ (component t r w).1 = Ok value /\
    _cache (component t r w).2 = <[key := value]> (_cache w).
Proof.
  rewrite component_unfold.
  destruct (task_cached t r w) as [hit|] eqn:Hmiss; [by left|]. simpl.
  destruct (call_outcome t r w) as [result|e] eqn:Hcall; [|by left]. simpl.
  destruct (post_process t r result) as [value|e] eqn:Hpost; [|by left].
  destruct (task_cache_key t r) as [key|] eqn:Hkey; [|by left].
  right. exists key, value. unfold task_cached in Hmiss.
  rewrite Hkey in Hmiss. simpl in Hmiss.
  assert (value = result) as -> by (destruct t; simpl in *; congruence).
  done.
Qed.

(** X2. A component changes the cache in one way only: a memoised
    operation that misses and whose call succeeds adds the parsed answer
    under its own key, which was free.  The itinerary and the budget
    never write to the cache, and a failed call writes nothing. *)
Theorem component_cache_change t r w :
  (_cache (component t r w).2 = _cache w \/
   exists key value,
     task_cache_key t r = Some key /\ _cache w !! key = None /\
     call_outcome t r w = Ok value /\ (component t r w).1 = Ok value /\
     _cache (component t r w).2 = <[key := value]> (_cache w)) /\
  (t = Itinerary \/ t = Budget -> _cache (component t r w).2 = _cache w) /\
  ((exists e, call_outcome t r w = Raised e) ->
   _cache (component t r w).2 = _cache w).
Proof.
  split; [apply component_cache|]. split.
  - intros Ht. destruct (component_cache t r w) as [|(key & ? & Hkey & _)];
      [done|]. by destruct Ht as [-> | ->].
  - intros [e He].
    destruct (component_cache t r w) as [|(? & ? & _ & _ & Hok & _)];
      [done|congruence].
Qed.

(** Entries of the cache stay as they are. *)
Lemma component_cache_subseteq t r w :
  _cache w ⊆ _cache (component t r w).2.
Proof.
  destruct (component_cache t r w) as [->|(key & value & _ & Hfree & _ & _ & ->)];
    [done|]. by apply insert_subseteq.
Qed.

Lemma run_task_world t r w : (run_task t r w).2 = (component t r w).2.
Proof.
  destruct (run_task_standalone t r w) as (w' & Hc & Hrun).
  by rewrite Hc, Hrun.
Qed.

Lemma run_workers_cache_subseteq r order w :
  _cache w ⊆ _cache (run_workers r order w).2.
Proof.
  revert w. induction order as [|t order IH]; intros w; [done|].
  simpl. unfold bind, worker.
  pose proof (run_task_world t r w) as Hw.
  pose proof (component_cache_subseteq t r w) as Hsub.
  destruct (run_task t r w) as [out w1]. simpl in Hw. rewrite <- Hw in Hsub.
  pose proof (IH w1) as Hrest.
  destruct (run_workers r order w1) as [[fs|e] w2]; simpl in *;
    by etrans.
Qed.

(** X3. A run of the aggregator keeps every entry the cache held: nothing
    is removed and nothing is overwritten. *)
Theorem generate_all_parallel_keeps_cache s r w :
  _cache w ⊆ _cache (generate_all_parallel s r w).2.
Proof.
  unfold generate_all_parallel, bind, lift_res.
  pose proof (run_workers_cache_subseteq r (run_order s) w) as Hsub.
  by destruct (run_workers r (run_order s) w) as [[fs|e] w'].
Qed.

End component_extras.

(** ** More on the aggregator *)

Section aggregator_extras.

Context `{!Collaborators}.

Lemma dom_initial_results : dom initial_results = result_keys.
Proof.
  unfold initial_results, result_keys. rewrite !dom_insert_L, dom_empty_L.
  apply set_eq. intros k. rewrite !elem_of_union, !elem_of_singleton.
  rewrite elem_of_empty. tauto.
Qed.

Lemma assign_all_dom kvs results :
  (forall kv, kv ∈ kvs -> kv.1 ∈ dom results) ->
  dom (assign_all results kvs) = dom results.
Proof.
  revert results. induction kvs as [|[k v] kvs IH]; intros results Hin; [done|].
  unfold assign_all. simpl. fold (assign_all (<[k:=v]> results) kvs).
  assert (Hk : k ∈ dom results) by (apply (Hin (k, v)); left).
  assert (Hdom : dom (<[k:=v]> results) = dom results).
  { rewrite dom_insert_L. apply subseteq_union_1_L.
    by apply singleton_subseteq_l. }
  rewrite IH; [done|].
  intros kv Hkv. rewrite Hdom. apply Hin. by right.
Qed.

Lemma tag_result_key t : tag t ∈ result_keys.
Proof.
  unfold result_keys. rewrite !elem_of_union, !elem_of_singleton.
  destruct t; simpl; tauto.
Qed.

(** X4. Whatever the schedule and whatever the model does, the dictionary
    the aggregator returns has exactly the keys it started with
    (insights, itinerary, budget, packing, errors) and its error list is
    empty: the branch that appends to [errors] is never taken. *)
Theorem generate_all_parallel_shape s r w :
  exists results w',
    generate_all_parallel s r w = (Ok results, w') /\
    dom results = result_keys /\
    results !! "errors" = Some (JList []).
Proof.
  destruct (generate_all_parallel_unfold s r w)
    as (fs & w' & _ & Hfs & Hrun).
  eexists _, w'. split; [exact Hrun|].
  assert (Hkeys : forall kv,
             kv ∈ omap (handed_in fs) (completion_order s) ->
             exists t, kv.1 = tag t).
  { intros kv Hkv. apply list_elem_of_omap in Hkv as (t & _ & Ht).
    exists t. by eapply handed_in_tag. }
  split.
  - rewrite assign_all_dom; [apply dom_initial_results|].
    intros kv Hkv. destruct (Hkeys kv Hkv) as [t ->].
    rewrite dom_initial_results. apply tag_result_key.
  - rewrite assign_all_lookup_notin; [done|].
    intros Hin. apply list_elem_of_fmap in Hin as (kv & Heq & Hkv).
    destruct (Hkeys kv Hkv) as [t Ht]. destruct t; simpl in *; congruence.
Qed.

(** The dictionary of a run, written out. *)
Lemma generate_all_parallel_valid s r w :
  valid_schedule s -> keys_disjoint r ->
  exists w',
    generate_all_parallel s r w
    = (Ok (assign_all initial_results
             ((fun t => (tag t, standalone t r w)) <$> completion_order s)),
       w').
Proof.
  intros Hs Hd.
  destruct (valid_schedule_NoDup s Hs) as [Hnr Hnc].
  destruct (run_workers_standalone r (run_order s) w Hd Hnr)
    as (w' & Hrun & _).
  exists w'. unfold generate_all_parallel, bind, lift_res. rewrite Hrun.
  set (g := fun t => (tag t, standalone t r w)).
  rewrite (as_completed_fmap (fun t => Ok (g t))).
  - rewrite (list_fmap_compose g Ok). by rewrite collect_Ok.
  - intros t _. by apply valid_schedule_all.
Qed.

(** X5. With the two cache keys distinct, the dictionary returned does
    not depend on the schedule at all: any two schedules that run and
    complete each task once give the same fields. *)
Theorem generate_all_parallel_schedule_free s1 s2 r w :
  valid_schedule s1 -> valid_schedule s2 -> keys_disjoint r ->
  (generate_all_parallel s1 r w).1 = (generate_all_parallel s2 r w).1.
Proof.
  intros H1 H2 Hd.
  destruct (generate_all_parallel_valid s1 r w H1 Hd) as [w1 ->].
  destruct (generate_all_parallel_valid s2 r w H2 Hd) as [w2 ->].
  simpl. f_equal. apply assign_all_perm.
  - rewrite <- list_fmap_compose. apply NoDup_fmap_2.
    + intros t1 t2. apply tag_inj.
    + by apply valid_schedule_NoDup.
  - apply fmap_Permutation. destruct H1 as [_ ->]. by destruct H2 as [_ ->].
Qed.

Lemma times_issued_component t r w :
  times_issued (task_request t r) (component t r w).2
  = (times_issued (task_request t r) w
     + (match task_cached t r w with Some _ => 0 | None => 1 end))%nat.
Proof.
  rewrite component_unfold.
  destruct (task_cached t r w); [simpl; lia|]. simpl.
  assert (Hq : times_issued (task_request t r)
                 (note_request (task_request t r) w)
               = (times_issued (task_request t r) w + 1)%nat).
  { rewrite times_issued_note_request. by rewrite decide_True. }
  destruct (res_bind _ _); simpl; [|done].
  by destruct (task_cache_key t r).
Qed.

Lemma task_succeeds_with_view t r w1 w2 value :
  view t r w1 = view t r w2 ->
  task_succeeds_with t r w1 value -> task_succeeds_with t r w2 value.
Proof.
  intros Hv (Hmiss & result & Hcall & Hpost).
  rewrite (call_outcome_view _ _ _ _ Hv) in Hcall.
  injection Hv as Hc _. split; [congruence|]. by exists result.
Qed.

(** What a run of the workers leaves behind for each task. *)
Lemma run_workers_effects r order w :
  keys_disjoint r -> NoDup order ->
  forall t,
    (t ∉ order -> view t r (run_workers r order w).2 = view t r w) /\
    (t ∈ order ->
     times_issued (task_request t r) (run_workers r order w).2
     = (times_issued (task_request t r) w
        + (match task_cached t r w with Some _ => 0 | None => 1 end))%nat /\
     (forall value,
         task_cached t r w = Some value ->
         task_cached t r (run_workers r order w).2 = Some value) /\
     (forall key value,
         task_cache_key t r = Some key ->
         task_succeeds_with t r w value ->
         _cache (run_workers r order w).2 !! key = Some value)).
Proof.
  intros Hd. revert w. induction order as [|t0 order IH]; intros w Hnd t.
  - split; [done|]. intros Hin. by apply elem_of_nil in Hin.
  - apply NoDup_cons in Hnd as [Ht0 Hnd].
    destruct (run_task_standalone t0 r w) as (w1 & Hc & Hrun).
    assert (Hw : (run_workers r (t0 :: order) w).2
                 = (run_workers r order w1).2).
    { simpl. unfold bind, worker. rewrite Hrun.
      by destruct (run_workers r order w1) as [[fs|e] w2]. }
    rewrite Hw. clear Hw.
    assert (Hw1 : w1 = (component t0 r w).2) by (by rewrite Hc).
    destruct (IH w1 Hnd t) as [IHout IHin].
    destruct (decide (t = t0)) as [->|Hne].
    + split; [intros Hn; apply not_elem_of_cons in Hn as [? _]; done|].
      intros _. specialize (IHout Ht0). unfold view in IHout.
      injection IHout as Hcache Htimes.
      split; [|split].
      * rewrite Htimes, Hw1. apply times_issued_component.
      * intros value Hhit. rewrite Hcache.
        rewrite (component_hit _ _ _ _ Hhit) in Hc.
        by injection Hc as _ <-.
      * intros key value Hkey Hs.
        assert (Hstored : task_cached t0 r w1 = Some value).
        { rewrite (component_succeeds _ _ _ _ Hs), Hkey in Hc.
          injection Hc as _ <-. unfold task_cached. rewrite Hkey. simpl.
          apply lookup_insert_eq. }
        rewrite <- Hcache in Hstored. unfold task_cached in Hstored.
        by rewrite Hkey in Hstored.
    + assert (Hframe : view t r w1 = view t r w).
      { eapply component_frame; [done| |done]. congruence. }
      split.
      * intros Hn. apply not_elem_of_cons in Hn as [_ Hn].
        by rewrite IHout.
      * intros Hin. apply elem_of_cons in Hin as [?|Hin]; [done|].
        destruct (IHin Hin) as (Htimes & Hhit & Hstore).
        unfold view in Hframe. injection Hframe as Hcache Hcount.
        split; [|split].
        -- by rewrite Htimes, Hcache, Hcount.
        -- intros value Hv. apply Hhit. congruence.
        -- intros key value Hkey Hs. apply (Hstore key value Hkey).
           eapply task_succeeds_with_view; [|done].
           unfold view. by rewrite Hcache, Hcount.
Qed.

Lemma generate_all_parallel_world s r w :
  (generate_all_parallel s r w).2 = (run_workers r (run_order s) w).2.
Proof.
  unfold generate_all_parallel, bind, lift_res.
  by destruct (run_workers r (run_order s) w) as [[fs|e] w'].
Qed.

(** X6. In one run of the aggregator, with the two cache keys distinct,
    the request of a task goes out once if the task finds nothing in the
    cache and not at all if it finds an entry; the itinerary and the
    budget, which have no cache, are asked for on every run. *)
Theorem generate_all_parallel_requests s r w t :
  valid_schedule s -> keys_disjoint r ->
  times_issued (task_request t r) (generate_all_parallel s r w).2
  = (times_issued (task_request t r) w
     + (match task_cached t r w with Some _ => 0 | None => 1 end))%nat /\
  (t = Itinerary \/ t = Budget ->
   times_issued (task_request t r) (generate_all_parallel s r w).2
   = S (times_issued (task_request t r) w)).
Proof.
  intros Hs Hd. rewrite generate_all_parallel_world.
  destruct (valid_schedule_NoDup s Hs) as [Hnr _].
  destruct (valid_schedule_all s t Hs) as [Hin _].
  destruct (run_workers_effects r (run_order s) w Hd Hnr t) as [_ Heff].
  destruct (Heff Hin) as (Htimes & _ & _).
  split; [done|]. intros Ht. rewrite Htimes.
  assert (task_cached t r w = None) as -> by (by destruct Ht as [-> | ->]).
  lia.
Qed.

(** X7. What a memoised task fetched in one run of the aggregator is
    served from the cache in the next: the field comes back with the
    same value and the request is not sent again. *)
Theorem generate_all_parallel_second_run s1 s2 r w t key value :
  valid_schedule s1 -> valid_schedule s2 -> keys_disjoint r ->
  task_cache_key t r = Some key ->
  task_succeeds_with t r w value ->
  exists results1 w1 results2 w2,
    generate_all_parallel s1 r w = (Ok results1, w1) /\
    generate_all_parallel s2 r w1 = (Ok results2, w2) /\
    results1 !! tag t = Some value /\
    results2 !! tag t = Some value /\
    times_issued (task_request t r) w2 = times_issued (task_request t r) w1.
Proof.
  intros H1 H2 Hd Hkey Hs.
  destruct (generate_all_parallel_fields s1 r w H1 Hd)
    as (results1 & w1 & Hrun1 & _ & Hf1).
  destruct (generate_all_parallel_fields s2 r w1 H2 Hd)
    as (results2 & w2 & Hrun2 & _ & Hf2).
  exists results1, w1, results2, w2. split; [done|]. split; [done|].
  assert (Hw1 : w1 = (run_workers r (run_order s1) w).2)
    by (by rewrite <- generate_all_parallel_world, Hrun1).
  assert (Hw2 : w2 = (run_workers r (run_order s2) w1).2)
    by (by rewrite <- generate_all_parallel_world, Hrun2).
  destruct (valid_schedule_NoDup s1 H1) as [Hn1 _].
  destruct (valid_schedule_NoDup s2 H2) as [Hn2 _].
  destruct (valid_schedule_all s1 t H1) as [Hin1 _].
  destruct (valid_schedule_all s2 t H2) as [Hin2 _].
  destruct (run_workers_effects r (run_order s1) w Hd Hn1 t) as [_ Heff1].
  destruct (Heff1 Hin1) as (_ & _ & Hstore).
  assert (Hhit : task_cached t r w1 = Some value).
  { unfold task_cached. rewrite Hkey. simpl. rewrite Hw1. by apply Hstore. }
  split; [|split].
  - rewrite Hf1. f_equal. unfold standalone.
    by rewrite (component_succeeds _ _ _ _ Hs).
  - rewrite Hf2. f_equal. unfold standalone.
    by rewrite (component_hit _ _ _ _ Hhit).
  - destruct (run_workers_effects r (run_order s2) w1 Hd Hn2 t) as [_ Heff2].
    destruct (Heff2 Hin2) as (Htimes & _ & _).
    rewrite Hw2, Htimes, Hhit. lia.
Qed.

End aggregator_extras.

(** ** More on the itinerary and the packing list *)

Section itinerary_extras.

Context `{!Collaborators}.

Lemma set_day_fields_non_object start_date i day :
  is_obj day = false -> exists e, set_day_fields start_date i day = Raised e.
Proof.
  intros Hday. unfold set_day_fields.
  destruct (fromisoformat start_date) as [start|]; [|by eexists].
  destruct (add_days start i); [|by eexists].
  destruct day; try done; by eexists.
Qed.

Lemma ensure_dates_non_object start_date i entries :
  Exists (fun e => is_obj e = false) entries ->
  exists e, ensure_dates start_date i entries = Raised e.
Proof.
  intros Hex. revert i. induction Hex as [day rest Hday|day rest _ IH];
    intros i; simpl.
  - destruct (set_day_fields_non_object start_date i day Hday) as [e ->].
    by eexists.
  - destruct (set_day_fields start_date i day); [|by eexists]. simpl.
    destruct (IH (i + 1)) as [e ->]. by eexists.
Qed.

Lemma ensure_dates_out_of_range start_date start i entries :
  fromisoformat start_date = Some start ->
  entries <> [] ->
  _MAXORDINAL < toordinal start + i + Z.of_nat (length entries) - 1 ->
  exists e, ensure_dates start_date i entries = Raised e.
Proof.
  intros Hstart. revert i.
  induction entries as [|day rest IH]; intros i Hne Hmax; [done|].
  simpl. destruct (set_day_fields start_date i day) as [day'|] eqn:Hday;
    [|by eexists].
  simpl. destruct rest as [|day2 rest].
  - unfold set_day_fields in Hday. rewrite Hstart in Hday.
    rewrite add_days_out_of_range in Hday; [done|]. simpl in Hmax. lia.
  - destruct (IH (i + 1)) as [e ->]; [done|simpl in *; lia|]. by eexists.
Qed.

(** X8. An answer that parses to an object with neither an [itinerary]
    nor a [days] key gives the empty itinerary without any error being
    logged: by its value alone it cannot be told from a failed call. *)
Theorem itinerary_missing_keys r w fields :
  call_outcome Itinerary r w = Ok (JObj fields) ->
  dict_get "itinerary" fields = None ->
  dict_get "days" fields = None ->
  create_daily_itinerary (destination r) (origin r) (days r)
    (preferences r) (budget_level r) (start_date r) w
  = (Ok (JList []), note_request (task_request Itinerary r) w).
Proof.
  intros Hcall Hit Hdays.
  assert (Hs : task_succeeds_with Itinerary r w (JList [])).
  { split; [done|]. exists (JObj fields). split; [done|].
    simpl. by rewrite Hit, Hdays. }
  by apply component_succeeds in Hs.
Qed.

(** X9. One entry that is not an object, or one date past the last day
    of [datetime], and the whole itinerary is lost: the component returns
    the empty list and logs one line. *)
Theorem itinerary_dropped_whole r w result entries start :
  fromisoformat (start_date r) = Some start ->
  call_outcome Itinerary r w = Ok result ->
  result_get_itinerary result = Ok (JList entries) ->
  Exists (fun e => is_obj e = false) entries \/
  _MAXORDINAL < toordinal start + Z.of_nat (length entries) - 1 ->
  exists e,
    create_daily_itinerary (destination r) (origin r) (days r)
      (preferences r) (budget_level r) (start_date r) w
    = (Ok (JList []),
       note_error ("Itinerary error: " ++ str_exn e)
         (note_request (task_request Itinerary r) w)).
Proof.
  intros Hstart Hcall Hget Hbad.
  assert (Hraise : exists e, ensure_dates (start_date r) 0 entries = Raised e).
  { destruct Hbad as [Hobj|Hmax].
    - by apply ensure_dates_non_object.
    - apply (ensure_dates_out_of_range _ start); [done| |lia].
      intros ->. simpl in Hmax.
      pose proof (toordinal_le_max _ (fromisoformat_valid _ _ Hstart)). lia. }
  destruct Hraise as [e He]. exists e.
  change (component Itinerary r w
          = (Ok (empty_value Itinerary),
             note_error (error_label Itinerary ++ str_exn e)
               (note_request (task_request Itinerary r) w))).
  rewrite component_unfold. simpl. rewrite Hcall. simpl.
  rewrite Hget. simpl. by rewrite He.
Qed.

Lemma dict_set_same k v d : dict_get k d = Some v -> dict_set k v d = d.
Proof.
  induction d as [|[k' v'] d IH]; simpl; [done|].
  destruct (decide (k' = k)) as [->|Hne].
  - by intros [= ->].
  - intros Hget. by rewrite IH.
Qed.

Lemma dated_again day_date fields :
  dated day_date (dated day_date fields) = dated day_date fields.
Proof.
  unfold dated at 1.
  rewrite (dict_set_same "date"); [|apply dated_date].
  apply dict_set_same, dated_day_of_week.
Qed.

Lemma set_day_fields_again start_date i day day' :
  set_day_fields start_date i day = Ok day' ->
  set_day_fields start_date i day' = Ok day'.
Proof.
  unfold set_day_fields.
  destruct (fromisoformat start_date) as [start|]; [|done].
  destruct (add_days start i) as [day_date|]; [|done].
  destruct day; try done. intros [= <-].
  do 2 f_equal. exact (dated_again day_date fields).
Qed.

Lemma ensure_dates_again start_date i entries entries' :
  ensure_dates start_date i entries = Ok entries' ->
  ensure_dates start_date i entries' = Ok entries'.
Proof.
  revert i entries'. induction entries as [|day rest IH]; intros i entries'.
  - by intros [= <-].
  - simpl. destruct (set_day_fields start_date i day) as [day'|] eqn:Hday;
      [|done]. simpl.
    destruct (ensure_dates start_date (i + 1) rest) as [rest'|] eqn:Hrest;
      [|done]. simpl. intros [= <-]. simpl.
    rewrite (set_day_fields_again _ _ _ _ Hday). simpl.
    by rewrite (IH _ _ Hrest).
Qed.

(** X10. Filling in the dates a second time changes nothing: the pass
    applied to its own outcome returns that outcome. *)
Theorem normalize_dates_idempotent start_date itinerary itinerary' :
  normalize_dates start_date itinerary = Ok itinerary' ->
  normalize_dates start_date itinerary' = Ok itinerary'.
Proof.
  destruct itinerary as [| | |s|entries|fields]; simpl; try done.
  - destruct (ensure_dates start_date 0 (chars s)) eqn:Hrun; [|done].
    simpl. intros [= <-]. simpl. by rewrite Hrun.
  - destruct (ensure_dates start_date 0 entries) as [entries'|] eqn:Hrun;
      [|done]. simpl. intros [= <-]. simpl.
    by rewrite (ensure_dates_again _ _ _ _ Hrun).
  - destruct (ensure_dates start_date 0 _) eqn:Hrun; [|done].
    simpl. intros [= <-]. simpl. by rewrite Hrun.
Qed.

(** X11. The number of days is no part of the packing key: a list fetched
    for one trip length is what a call for any other length returns,
    with nothing asked of the model. *)
Theorem packing_list_ignores_days
    destination days1 days2 season activities w value :
  _cache w
    !! _get_cache_key "packing" [destination; season; str_list activities]
  = None ->
  answer (packing_request destination days1 season activities) w = Ok value ->
  exists w1,
    get_packing_list destination days1 season activities w = (Ok value, w1) /\
    get_packing_list destination days2 season activities w1
    = (Ok value, w1).
Proof.
  intros Hmiss Hcall.
  set (r1 := {| origin := ""; destination := destination; days := days1;
                travelers := 0; preferences := activities;
                budget_level := ""; season := season; start_date := "" |}).
  set (r2 := {| origin := ""; destination := destination; days := days2;
                travelers := 0; preferences := activities;
                budget_level := ""; season := season; start_date := "" |}).
  assert (Hs : task_succeeds_with Packing r1 w value).
  { split; [done|]. by exists value. }
  apply component_succeeds in Hs. simpl in Hs.
  eexists. split; [exact Hs|].
  apply (component_hit Packing r2). unfold task_cached. simpl.
  apply lookup_insert_eq.
Qed.

(** X12. The shape [{'error': message}] is never made by a component: a
    value of that shape is returned only when the cache held it or the
    model itself answered it. *)
Theorem error_shape_not_made t r w :
  error_shaped (standalone t r w) ->
  task_cached t r w = Some (standalone t r w) \/
  call_outcome t r w = Ok (standalone t r w).
Proof.
  unfold standalone. rewrite component_unfold.
  destruct (task_cached t r w) as [hit|]; [by left|]. simpl.
  destruct (call_outcome t r w) as [result|e]; simpl.
  - destruct (post_process t r result) as [value|e] eqn:Hpost.
    + intros Hshape. right. destruct t; simpl in Hpost; try congruence.
      destruct Hshape as [message ->].
      destruct (result_get_itinerary result) as [it|]; [|done].
      simpl in Hpost. exfalso.
      destruct it as [| | |s|entries|fields]; simpl in Hpost; try done.
      * by destruct (ensure_dates _ _ _).
      * by destruct (ensure_dates _ _ _).
      * destruct (ensure_dates _ _ _) eqn:Hrun; [|done].
        simpl in Hpost. injection Hpost as ->.
        simpl in Hrun. unfold set_day_fields in Hrun.
        destruct (fromisoformat (start_date r)) as [start|]; [|done].
        by destruct (add_days start 0).
    + intros Hshape. by apply empty_value_not_error_shaped in Hshape.
  - intros Hshape. by apply empty_value_not_error_shaped in Hshape.
Qed.

(** X13. With a digest that never gives two texts the same value, the
    insights key and the packing key of a request differ, and two
    destinations never share an insights key. *)
Theorem cache_keys_apart r :
  (forall x y, md5_hexdigest x = md5_hexdigest y -> x = y) ->
  keys_disjoint r /\
  forall d1 d2,
    _get_cache_key "insights" [d1] = _get_cache_key "insights" [d2] ->
    d1 = d2.
Proof.
  intros Hinj. split.
  - unfold keys_disjoint. simpl. unfold _get_cache_key.
    intros [= Heq]. apply Hinj in Heq. discriminate Heq.
  - intros d1 d2 Heq. unfold _get_cache_key in Heq. apply Hinj in Heq.
    by injection Heq.
Qed.

End itinerary_extras.

(** ** More on the form and the page *)

Lemma is_empty_true s : is_empty s = true <-> s = "".
Proof. by destruct s. Qed.

Lemma date_leb_iff a b :
  valid_date a -> valid_date b ->
  date_leb a b = true <-> toordinal a <= toordinal b.
Proof.
  intros Ha Hb. unfold date_leb. rewrite negb_true_iff.
  pose proof (date_ltb_iff b a Hb Ha) as Hlt.
  destruct (date_ltb b a); split; intros H; try done.
  - pose proof (proj1 Hlt eq_refl). lia.
  - destruct (decide (toordinal b < toordinal a)) as [Hba|]; [|lia].
    apply Hlt in Hba. done.
Qed.

Lemma main_submit_cases f :
  valid_date (form_start_date f) -> valid_date (form_end_date f) ->
  ((form_origin f = "" \/ form_destination f = "") /\
   main_submit f = MissingPlace) \/
  (form_origin f <> "" /\ form_destination f <> "" /\
   toordinal (form_end_date f) <= toordinal (form_start_date f) /\
   main_submit f = EndNotAfterStart) \/
  (form_origin f <> "" /\ form_destination f <> "" /\
   toordinal (form_start_date f) < toordinal (form_end_date f) /\
   exists r, main_submit f = CoreInvoked r).
Proof.
  intros Hs He. pose proof Hs as (_ & Hm & _).
  pose proof (date_leb_iff _ _ He Hs) as Hle.
  pose proof (is_empty_true (form_origin f)) as Ho.
  pose proof (is_empty_true (form_destination f)) as Hdst.
  unfold main_submit.
  rewrite (season_of_month_in_range _ Hm).
  destruct (is_empty (form_origin f)).
  { left. split; [|reflexivity]. left. by apply Ho. }
  destruct (is_empty (form_destination f)).
  { left. split; [|reflexivity]. right. by apply Hdst. }
  assert (Hno : form_origin f <> "").
  { intros H. apply Ho in H. discriminate H. }
  assert (Hnd : form_destination f <> "").
  { intros H. apply Hdst in H. discriminate H. }
  cbn [orb]. right.
  destruct (date_leb (form_end_date f) (form_start_date f)).
  - left. split; [exact Hno|]. split; [exact Hnd|].
    split; [by apply Hle|reflexivity].
  - right. split; [exact Hno|]. split; [exact Hnd|]. split.
    + destruct (Z.le_gt_cases (toordinal (form_end_date f))
                  (toordinal (form_start_date f))) as [Hc|Hc]; [|lia].
      apply Hle in Hc. discriminate Hc.
    + eexists. reflexivity.
Qed.

(** X14. With both dates real calendar days, the form reaches the core
    if and only if both places are filled in and the end date is later
    than the start date; it is turned away for a missing place first and
    for the dates second, and the season lookup never fails. *)
Theorem main_submit_decision f :
  valid_date (form_start_date f) -> valid_date (form_end_date f) ->
  (main_submit f = MissingPlace <->
   form_origin f = "" \/ form_destination f = "") /\
  (main_submit f = EndNotAfterStart <->
   form_origin f <> "" /\ form_destination f <> "" /\
   toordinal (form_end_date f) <= toordinal (form_start_date f)) /\
  ((exists r, main_submit f = CoreInvoked r) <->
   form_origin f <> "" /\ form_destination f <> "" /\
   toordinal (form_start_date f) < toordinal (form_end_date f)) /\
  main_submit f <> SubmitFailed.
Proof.
  intros Hs He.
  destruct (main_submit_cases f Hs He)
    as [(Hplace & Hrun)|[(Ho & Hd & Hle & Hrun)|(Ho & Hd & Hlt & r & Hrun)]];
    rewrite Hrun; clear Hrun.
  - split; [tauto|]. split; [|split]; [| |discriminate].
    + split; [discriminate|]. tauto.
    + split; [intros [r' Hr]; discriminate Hr|]. tauto.
  - split; [|split; [|split]]; [| | |discriminate].
    + split; [discriminate|]. tauto.
    + tauto.
    + split; [intros [r' Hr]; discriminate Hr|]. intros (_ & _ & ?). lia.
  - split; [|split; [|split]]; [| | |discriminate].
    + split; [discriminate|]. tauto.
    + split; [discriminate|]. intros (_ & _ & ?). lia.
    + split; [tauto|]. intros _. by exists r.
Qed.

Lemma main_submit_request f r :
  main_submit f = CoreInvoked r ->
  start_date r = strftime_ymd (form_start_date f) /\
  days r = days_between (form_end_date f) (form_start_date f) /\
  date_leb (form_end_date f) (form_start_date f) = false.
Proof.
  unfold main_submit.
  destruct (_ || _); [done|]. destruct (date_leb _ _); [done|].
  destruct (season_of_month _); [|done].
  by intros [= <-].
Qed.

(** X15. The start date the core receives is text that
    [datetime.fromisoformat] reads back as the start date of the form:
    the date pass of the itinerary never fails on it. *)
Theorem main_submit_start_date_readable f r :
  valid_date (form_start_date f) ->
  main_submit f = CoreInvoked r ->
  fromisoformat (start_date r) = Some (form_start_date f).
Proof.
  intros Hs Hsub. destruct (main_submit_request f r Hsub) as (-> & _).
  by apply fromisoformat_strftime_ymd.
Qed.

Section page_extras.

Context `{!Collaborators}.

(** X16. For a request that [main] built, an answer of at most [days]
    entries is dated day by day from the start date of the form: entry
    [i] carries the text of the day [i] days after the start, that text
    reads back as that day, and every entry falls before the end date,
    which itself gets no entry.  No date can leave the range of
    [datetime] here. *)
Theorem itinerary_spans_trip f r w result entries :
  valid_date (form_start_date f) -> valid_date (form_end_date f) ->
  main_submit f = CoreInvoked r ->
  call_outcome Itinerary r w = Ok result ->
  result_get_itinerary result = Ok (JList entries) ->
  Forall (fun e => is_obj e = true) entries ->
  Z.of_nat (length entries) <= days r ->
  exists entries' w',
    create_daily_itinerary (destination r) (origin r) (days r)
      (preferences r) (budget_level r) (start_date r) w
    = (Ok (JList entries'), w') /\
    length entries' = length entries /\
    forall (i : nat) fields,
      entries !! i = Some (JObj fields) ->
      exists day_date fields',
        entries' !! i = Some (JObj fields') /\
        dict_get "date" fields' = Some (JStr (strftime_ymd day_date)) /\
        dict_get "day_of_week" fields' = Some (JStr (strftime_A day_date)) /\
        valid_date day_date /\
        toordinal day_date = toordinal (form_start_date f) + Z.of_nat i /\
        fromisoformat (strftime_ymd day_date) = Some day_date /\
        date_ltb day_date (form_end_date f) = true /\
        (i = 0%nat -> strftime_ymd day_date = start_date r).
Proof.
  intros Hs He Hsub Hcall Hget Hobj Hlen.
  destruct (main_submit_request f r Hsub) as (Hstart & Hdays & _).
  assert (Hread : fromisoformat (start_date r) = Some (form_start_date f))
    by (rewrite Hstart; by apply fromisoformat_strftime_ymd).
  pose proof (toordinal_pos _ Hs) as Hpos.
  pose proof (toordinal_le_max _ He) as Hmax.
  unfold days_between in Hdays.
  destruct (ensure_dates_spec (start_date r) (form_start_date f) entries 0
              Hread Hobj) as (entries' & Hrun & Hsame & Hat); [lia..|].
  assert (Hok : task_succeeds_with Itinerary r w (JList entries')).
  { split; [done|]. exists result. split; [done|].
    simpl. rewrite Hget. simpl. by rewrite Hrun. }
  apply component_succeeds in Hok. simpl in Hok.
  eexists _, _. split; [exact Hok|]. split; [done|].
  intros i fields Hi.
  destruct (Hat i fields Hi) as (day_date & Hday & Hentry).
  apply lookup_lt_Some in Hi.
  destruct (add_days_spec (form_start_date f) (0 + Z.of_nat i) Hs)
    as (day_date' & Hday' & Hvalid & Hord); [lia|].
  rewrite Hday in Hday'. injection Hday' as <-.
  exists day_date, (dated day_date fields).
  split; [done|]. split; [apply dated_date|].
  split; [apply dated_day_of_week|]. split; [done|].
  split; [lia|]. split; [by apply fromisoformat_strftime_ymd|].
  split; [apply date_ltb_iff; [done..|lia]|].
  intros ->. rewrite Hstart. f_equal.
  apply toordinal_inj; [done..|]. simpl in Hord. lia.
Qed.

Lemma assign_all_lookup_is_Some kvs results key :
  is_Some (results !! key) -> is_Some (assign_all results kvs !! key).
Proof.
  revert results. induction kvs as [|[k v] kvs IH]; intros results Hin;
    [done|].
  unfold assign_all. simpl. apply IH.
  destruct (decide (k = key)) as [->|Hne].
  - rewrite lookup_insert_eq. by eexists.
  - by rewrite lookup_insert_ne.
Qed.

(** X17. A form that gets past the two checks always ends with a plan on
    the page and no error banner, whatever the four model calls do: the
    aggregator raises nothing for the [except] branch to catch.  The four
    sections of the plan are the fields of the returned dictionary, the
    defaults of [results.get] never being used. *)
Theorem main_on_submit_always_plans s f kept w r :
  main_submit f = CoreInvoked r ->
  exists results w',
    generate_all_parallel s r w = (Ok results, w') /\
    main_on_submit s f kept w
    = ({| banners :=
            if 14 <? days r then [LongTripWarning (days r)] else [];
          trip_plan :=
            Some (trip_plan_of f (days r) (start_date r) results) |}, w') /\
    forall t,
      dict_get (tag t) (trip_plan_of f (days r) (start_date r) results)
      = results !! tag t.
Proof.
  unfold main_submit, main_on_submit.
  destruct (_ || _); [done|]. destruct (date_leb _ _); [done|].
  destruct (season_of_month _) as [season|]; [|done].
  intros [= <-]. cbn [days start_date].
  match goal with
  | |- context [generate_all_parallel s ?r w] => set (req := r)
  end.
  destruct (generate_all_parallel_unfold s req w)
    as (fs & w' & _ & _ & Hrun).
  eexists _, w'. split; [exact Hrun|]. rewrite Hrun.
  split; [reflexivity|].
  intros t.
  assert (Hsome : is_Some
            (assign_all initial_results
               (omap (handed_in fs) (completion_order s)) !! tag t)).
  { apply assign_all_lookup_is_Some. destruct t; by eexists. }
  destruct Hsome as [value Hvalue].
  destruct t; cbn [tag trip_plan_of dict_get]; simpl in Hvalue;
    repeat (rewrite decide_False by done); rewrite decide_True by done;
    unfold results_get; by rewrite Hvalue.
Qed.

(** X18. A form that is turned away costs nothing: one error banner is
    shown, the plan kept on the page stays, and no request goes out. *)
Theorem main_on_submit_rejected s f kept w :
  main_submit f = MissingPlace \/ main_submit f = EndNotAfterStart ->
  exists message,
    main_on_submit s f kept w
    = ({| banners := [ErrorBanner message]; trip_plan := kept |}, w).
Proof.
  unfold main_submit, main_on_submit.
  destruct (_ || _); [by eexists|].
  destruct (date_leb _ _); [by eexists|].
  destruct (season_of_month _); by intros [|].
Qed.

End page_extras.

(** ** More on the collecting loop *)

Lemma append_error_lookup line results errors :
  results !! "errors" = Some (JList errors) ->
  exists results',
    append_error line results = Ok results' /\
    results' !! "errors" = Some (JList (errors ++ [JStr line])%list) /\
    forall key, key <> "errors" -> results' !! key = results !! key.
Proof.
  intros Herr. unfold append_error. rewrite Herr.
  eexists. split; [done|]. split; [apply lookup_insert_eq|].
  intros key Hne. by apply lookup_insert_ne.
Qed.

Lemma last_filed_elem key fs value :
  last_filed key fs = Some value -> Ok (key, value) ∈ fs.
Proof.
  induction fs as [|f fs IH]; [done|]. simpl.
  destruct (last_filed key fs) as [later|].
  - intros [= ->]. right. by apply IH.
  - destruct f as [[k v]|e]; [|done].
    destruct (decide (k = key)) as [->|]; [|done].
    intros [= ->]. by left.
Qed.

Lemma last_filed_is_Some key fs value :
  Ok (key, value) ∈ fs -> is_Some (last_filed key fs).
Proof.
  induction fs as [|f fs IH]; intros Hin; [by apply elem_of_nil in Hin|].
  simpl. apply elem_of_cons in Hin as [<-|Hin].
  - destruct (last_filed key fs); [by eexists|].
    rewrite decide_True by done. by eexists.
  - destruct (IH Hin) as [later ->]. by eexists.
Qed.

(** The loop, key by key. *)
Lemma collect_lookup fs results errors :
  results !! "errors" = Some (JList errors) ->
  (forall key value, Ok (key, value) ∈ fs -> key <> "errors") ->
  exists results',
    collect fs results = Ok results' /\
    results' !! "errors" = Some (JList (errors ++ raised_lines fs)%list) /\
    forall key,
      key <> "errors" ->
      results' !! key
      = match last_filed key fs with
        | Some value => Some value
        | None => results !! key
        end.
Proof.
  revert results errors. induction fs as [|f fs IH]; intros results errors.
  - intros Herr _. exists results. split; [done|].
    split; [by rewrite app_nil_r|]. done.
  - intros Herr Hkeys.
    assert (Hrest : forall key value, Ok (key, value) ∈ fs -> key <> "errors").
    { intros key value Hkv. apply (Hkeys key value). by right. }
    destruct f as [[k v]|e].
    + assert (Hk : k <> "errors") by (apply (Hkeys k v); left).
      destruct (IH (<[k:=v]> results) errors)
        as (results' & Hrun & He & Hat); [|done|].
      { by rewrite lookup_insert_ne. }
      exists results'. split; [done|]. split; [done|].
      intros key Hne. rewrite (Hat key Hne). simpl.
      destruct (last_filed key fs); [done|].
      destruct (decide (k = key)) as [->|Hkk].
      * apply lookup_insert_eq.
      * by apply lookup_insert_ne.
    + destruct (append_error_lookup (str_exn e) results errors Herr)
        as (results1 & Happ & Herr1 & Hsame).
      destruct (IH results1 (errors ++ [JStr (str_exn e)])%list Herr1 Hrest)
        as (results' & Hrun & He & Hat).
      exists results'. split; [simpl; by rewrite Happ|].
      split; [by rewrite He, <- app_assoc|].
      intros key Hne. rewrite (Hat key Hne). simpl.
      destruct (last_filed key fs); [done|]. by apply Hsame.
Qed.

(** X19. The collecting loop by itself, on any list of futures none of
    which reports under the key [errors]: it never raises; it appends the
    message of each future that holds an exception, in order of arrival;
    and under every other key it leaves the value of the last future
    that reports under that key, or what was there if none does.  So a
    future that holds a pair is filed under its key with its own value,
    whatever exceptions arrive before or after it, unless another future
    reports something else under the same key. *)
Theorem collect_keeps_going fs results errors :
  results !! "errors" = Some (JList errors) ->
  (forall key value, Ok (key, value) ∈ fs -> key <> "errors") ->
  exists results',
    collect fs results = Ok results' /\
    results' !! "errors" = Some (JList (errors ++ raised_lines fs)%list) /\
    (forall key,
        key <> "errors" ->
        results' !! key
        = match last_filed key fs with
          | Some value => Some value
          | None => results !! key
          end) /\
    forall key value,
      Ok (key, value) ∈ fs ->
      (forall value', Ok (key, value') ∈ fs -> value' = value) ->
      results' !! key = Some value.
Proof.
  intros Herr Hkeys.
  destruct (collect_lookup fs results errors Herr Hkeys)
    as (results' & Hrun & He & Hat).
  exists results'. split; [done|]. split; [done|]. split; [done|].
  intros key value Hin Hsame.
  rewrite (Hat key (Hkeys key value Hin)).
  destruct (last_filed_is_Some key fs value Hin) as [last Hlast].
  rewrite Hlast. f_equal. apply Hsame. by apply last_filed_elem.
Qed.

(** ** The statements at the Paris request *)

Lemma season_of_month_table_june :
  1 <= 6 <= 12 /\
  0 <= season_index 6 <= 3 /\
  season_of_month 6 = Some (season_table 6) /\
  season_table 6 ∈ SEASONS.
Proof.
  assert (H : 1 <= 6 <= 12) by lia.
  split; [exact H|]. exact (season_of_month_table 6 H).
Defined.


Lemma cache_key_not_injective_packing :
  exists w1,
    @get_packing_list (demo all_up) "a_b" 3 "c" ["Culture"] empty_world
    = (Ok (JObj [("documents", JList [JStr "Passport"])]), w1) /\
    @get_packing_list (demo all_up) "a" 5 "b_c" ["Culture"] w1
    = (Ok (JObj [("documents", JList [JStr "Passport"])]), w1).
Proof.
  apply (proj2 (proj2 (@cache_key_not_injective (demo all_up) "packing"
                         3 5 ["Culture"] empty_world _))); reflexivity.
Defined.

Lemma memoised_call_not_repeated_paris :
  exists w1,
    @component (demo all_up) Insights paris empty_world
    = (Ok (JObj [("description", JStr "City of light")]), w1) /\
    issued w1 = [@task_request Insights paris] /\
    _cache w1 !! "insights_Paris"
    = Some (JObj [("description", JStr "City of light")]) /\
    @component (demo all_up) Insights paris w1
    = (Ok (JObj [("description", JStr "City of light")]), w1).
Proof.
  apply (@memoised_call_not_repeated (demo all_up) Insights paris
           empty_world "insights_Paris").
  - reflexivity.
  - split; [reflexivity|]. eexists. split; reflexivity.
Defined.

Lemma failed_call_not_cached_paris :
  exists w1,
    @component (demo all_down) Packing paris empty_world
    = (Ok (JObj []), w1) /\
    _cache w1 = _cache empty_world /\
    _cache w1 !! "packing_Paris_summer_['Culture']" = None /\
    exists value w2,
      @component (demo all_down) Packing paris w1 = (Ok value, w2) /\
      issued w2
      = [@task_request Packing paris; @task_request Packing paris].
Proof.
  apply (@failed_call_not_cached (demo all_down) Packing paris empty_world
           "packing_Paris_summer_['Culture']").
  - reflexivity.
  - split; [reflexivity|]. eexists. reflexivity.
Defined.

Lemma failed_component_returns_empty_paris :
  exists w',
    @component (demo all_down) Itinerary paris empty_world
    = (Ok (JList []), w') /\
    ~ error_shaped (JList []) /\
    logged w' = ["Itinerary error: service unavailable"] /\
    _cache w' = ∅.
Proof.
  apply (@failed_component_returns_empty (demo all_down) Itinerary paris
           empty_world (Exn "APIError" "service unavailable"));
    reflexivity.
Defined.

Lemma itinerary_dates_follow_position_paris :
  exists entries' w',
    @create_daily_itinerary (demo all_up) "Paris" "New York" 3 ["Culture"]
      "mid-range" "2024-06-01" empty_world
    = (Ok (JList entries'), w') /\
    length entries' = 3%nat /\
    forall (i : nat) fields,
      [JObj [("day", JNum 1); ("date", JStr "1999-12-31");
             ("title", JStr "Arrival")];
       JObj [("day", JNum 7); ("title", JStr "Museums")];
       JObj [("title", JStr "Departure"); ("day_of_week", JStr "Friday")]]
        !! i = Some (JObj fields) ->
      exists day_date text name fields',
        add_days (Date 2024 6 1) (Z.of_nat i) = Some day_date /\
        valid_date day_date /\
        1000 <= year day_date /\
        toordinal day_date = toordinal (Date 2024 6 1) + Z.of_nat i /\
        (i = 0%nat -> day_date = Date 2024 6 1) /\
        entries' !! i = Some (JObj fields') /\
        dict_get "date" fields' = Some (JStr text) /\
        text = strftime_ymd day_date /\
        String.length text = 10%nat /\
        fromisoformat text = Some day_date /\
        dict_get "day_of_week" fields' = Some (JStr name) /\
        name = strftime_A day_date /\
        WEEKDAYS !! Z.to_nat ((toordinal day_date - 1) mod 7) = Some name /\
        forall k, k <> "date" -> k <> "day_of_week" ->
          dict_get k fields' = dict_get k fields.
Proof.
  apply (@itinerary_dates_follow_position (demo all_up) paris empty_world
           demo_itinerary
           [JObj [("day", JNum 1); ("date", JStr "1999-12-31");
                  ("title", JStr "Arrival")];
            JObj [("day", JNum 7); ("title", JStr "Museums")];
            JObj [("title", JStr "Departure");
                  ("day_of_week", JStr "Friday")]]
           (Date 2024 6 1)).
  - reflexivity.
  - by vm_compute.
  - reflexivity.
  - reflexivity.
  - repeat constructor.
  - by vm_compute.
Defined.

Lemma failed_task_field_is_empty_paris :
  exists results w',
    @generate_all_parallel (demo (only_down Budget)) shuffled paris
      empty_world = (Ok results, w') /\
    results !! "budget" = Some (JObj []) /\
    results !! "errors" = Some (JList []) /\
    forall t', t' <> Budget ->
      results !! tag t'
      = Some (@standalone (demo (only_down Budget)) t' paris empty_world).
Proof.
  apply (@failed_task_field_is_empty (demo (only_down Budget)) shuffled
           paris empty_world Budget).
  - split; by apply (bool_decide_unpack _).
  - done.
  - split; [reflexivity|]. eexists. reflexivity.
  - intros t Ht. destruct t; [| |by destruct Ht|];
      (split; [reflexivity|]); eexists;
      (split; [vm_compute; reflexivity|]); vm_compute; reflexivity.
Defined.

Lemma generate_all_parallel_contains_failures_paris :
  exists results w',
    @generate_all_parallel (demo all_down) shuffled paris empty_world
    = (Ok results, w') /\
    results !! "errors" = Some (JList []) /\
    forall t,
      results !! tag t
      = Some (@standalone (demo all_down) t paris empty_world).
Proof.
  destruct (@generate_all_parallel_contains_failures (demo all_down)
              shuffled paris empty_world) as (results & w' & Hrun & Hrest).
  exists results, w'. split; [exact Hrun|]. apply Hrest.
  - split; by apply (bool_decide_unpack _).
  - done.
Defined.

Lemma completion_order_irrelevant_paris :
  @generate_all_parallel (demo (only_down Itinerary))
    (Schedule (run_order shuffled) all_tasks) paris empty_world
  = @generate_all_parallel (demo (only_down Itinerary))
      (Schedule (run_order shuffled) [Packing; Budget; Insights; Itinerary])
      paris empty_world /\
  exists fs results w',
    @run_workers (demo (only_down Itinerary)) paris (run_order shuffled)
      empty_world = (Ok fs, w') /\
    fs.*1 = run_order shuffled /\
    @generate_all_parallel (demo (only_down Itinerary))
      (Schedule (run_order shuffled) all_tasks) paris empty_world
    = (Ok results, w') /\
    results !! "errors" = Some (JList []) /\
    forall t,
      match future_of fs t with
      | Some (Ok (key, value)) =>
          key = tag t /\ results !! tag t = Some value
      | Some (Raised _) => False
      | None => results !! tag t = Some JNull
      end.
Proof.
  apply (@completion_order_irrelevant (demo (only_down Itinerary))).
  - reflexivity.
  - by apply (bool_decide_unpack _).
Defined.

(** ** The further statements on scripted collaborators *)

Lemma component_cache_change_paris :
  _cache (@component (demo all_down) Insights paris empty_world).2
  = _cache empty_world.
Proof.
  apply (proj2 (proj2 (@component_cache_change (demo all_down) Insights
                         paris empty_world))).
  by eexists.
Defined.

Lemma generate_all_parallel_schedule_free_paris :
  (@generate_all_parallel (demo all_up) in_order paris empty_world).1
  = (@generate_all_parallel (demo all_up) shuffled paris empty_world).1.
Proof.
  apply (@generate_all_parallel_schedule_free (demo all_up)).
  - split; reflexivity.
  - split; by apply (bool_decide_unpack _).
  - done.
Defined.

Lemma generate_all_parallel_requests_paris :
  times_issued (@task_request Budget paris)
    (@generate_all_parallel (demo all_down) shuffled paris empty_world).2
  = 1%nat.
Proof.
  assert (Hs : valid_schedule shuffled)
    by (split; by apply (bool_decide_unpack _)).
  assert (Hd : @keys_disjoint (demo all_down) paris) by done.
  apply (proj2 (@generate_all_parallel_requests (demo all_down) shuffled
                  paris empty_world Budget Hs Hd)).
  by right.
Defined.

Lemma generate_all_parallel_second_run_paris :
  exists results1 w1 results2 w2,
    @generate_all_parallel (demo all_up) shuffled paris empty_world
    = (Ok results1, w1) /\
    @generate_all_parallel (demo all_up) in_order paris w1
    = (Ok results2, w2) /\
    results1 !! "packing"
    = Some (JObj [("documents", JList [JStr "Passport"])]) /\
    results2 !! "packing"
    = Some (JObj [("documents", JList [JStr "Passport"])]) /\
    times_issued (@task_request Packing paris) w2
    = times_issued (@task_request Packing paris) w1.
Proof.
  apply (@generate_all_parallel_second_run (demo all_up) shuffled in_order
           paris empty_world Packing "packing_Paris_summer_['Culture']").
  - split; by apply (bool_decide_unpack _).
  - split; reflexivity.
  - done.
  - reflexivity.
  - split; [reflexivity|]. eexists. split; reflexivity.
Defined.

Lemma itinerary_missing_keys_paris :
  @create_daily_itinerary (script (always (JObj [("plan", JList [])])))
    "Paris" "New York" 3 ["Culture"] "mid-range" "2024-06-01" empty_world
  = (Ok (JList []), note_request (@task_request Itinerary paris) empty_world).
Proof.
  apply (@itinerary_missing_keys (script (always (JObj [("plan", JList [])])))
           paris empty_world [("plan", JList [])]); reflexivity.
Defined.

Lemma itinerary_dropped_whole_paris :
  exists e,
    @create_daily_itinerary
      (script (always (JObj [("itinerary", JList [JObj []; JStr "Day 2"])])))
      "Paris" "New York" 3 ["Culture"] "mid-range" "2024-06-01" empty_world
    = (Ok (JList []),
       note_error ("Itinerary error: " ++ str_exn e)
         (note_request (@task_request Itinerary paris) empty_world)).
Proof.
  apply (@itinerary_dropped_whole
           (script (always (JObj [("itinerary",
                                   JList [JObj []; JStr "Day 2"])])))
           paris empty_world
           (JObj [("itinerary", JList [JObj []; JStr "Day 2"])])
           [JObj []; JStr "Day 2"] (Date 2024 6 1)).
  - reflexivity.
  - reflexivity.
  - reflexivity.
  - left. apply Exists_cons_tl, Exists_cons_hd. reflexivity.
Defined.

Lemma normalize_dates_idempotent_june :
  normalize_dates "2024-06-01"
    (JList [JObj [("date", JStr "2024-06-01");
                  ("day_of_week", JStr "Saturday")]])
  = Ok (JList [JObj [("date", JStr "2024-06-01");
                     ("day_of_week", JStr "Saturday")]]).
Proof.
  apply (normalize_dates_idempotent "2024-06-01"
           (JList [JObj [("date", JStr "tomorrow")]])).
  vm_compute. reflexivity.
Defined.

Lemma packing_list_ignores_days_paris :
  exists w1,
    @get_packing_list (demo all_up) "Paris" 3 "summer" ["Culture"]
      empty_world
    = (Ok (JObj [("documents", JList [JStr "Passport"])]), w1) /\
    @get_packing_list (demo all_up) "Paris" 14 "summer" ["Culture"] w1
    = (Ok (JObj [("documents", JList [JStr "Passport"])]), w1).
Proof.
  apply (@packing_list_ignores_days (demo all_up) "Paris" 3 14 "summer"
           ["Culture"] empty_world); reflexivity.
Defined.

Lemma error_shape_not_made_paris :
  @call_outcome (script (always (JObj [("error", JStr "quota")]))) Budget
    paris empty_world
  = Ok (@standalone (script (always (JObj [("error", JStr "quota")])))
          Budget paris empty_world).
Proof.
  destruct (@error_shape_not_made
              (script (always (JObj [("error", JStr "quota")])))
              Budget paris empty_world) as [Hhit|Hcall].
  - by exists "quota".
  - discriminate Hhit.
  - exact Hcall.
Defined.

Lemma cache_keys_apart_paris :
  @keys_disjoint (demo all_up) paris /\
  forall d1 d2,
    @_get_cache_key (demo all_up) "insights" [d1]
    = @_get_cache_key (demo all_up) "insights" [d2] ->
    d1 = d2.
Proof.
  apply (@cache_keys_apart (demo all_up) paris). intros x y Hxy. exact Hxy.
Defined.

Lemma main_submit_decision_paris :
  exists r, main_submit paris_form = CoreInvoked r.
Proof.
  assert (Hs : valid_date (form_start_date paris_form))
    by (by apply valid_dateb_valid).
  assert (He : valid_date (form_end_date paris_form))
    by (by apply valid_dateb_valid).
  destruct (main_submit_decision paris_form Hs He) as (_ & _ & Hcore & _).
  apply Hcore. split; [done|]. split; [done|]. by vm_compute.
Defined.

Lemma main_submit_start_date_readable_paris :
  fromisoformat (start_date paris) = Some (form_start_date paris_form).
Proof.
  apply (main_submit_start_date_readable paris_form paris).
  - by apply valid_dateb_valid.
  - reflexivity.
Defined.

Lemma itinerary_spans_trip_paris :
  exists entries' w',
    @create_daily_itinerary (demo all_up) "Paris" "New York" 3 ["Culture"]
      "mid-range" "2024-06-01" empty_world
    = (Ok (JList entries'), w') /\
    length entries' = 3%nat /\
    forall (i : nat) fields,
      [JObj [("day", JNum 1); ("date", JStr "1999-12-31");
             ("title", JStr "Arrival")];
       JObj [("day", JNum 7); ("title", JStr "Museums")];
       JObj [("title", JStr "Departure"); ("day_of_week", JStr "Friday")]]
        !! i = Some (JObj fields) ->
      exists day_date fields',
        entries' !! i = Some (JObj fields') /\
        dict_get "date" fields' = Some (JStr (strftime_ymd day_date)) /\
        dict_get "day_of_week" fields' = Some (JStr (strftime_A day_date)) /\
        valid_date day_date /\
        toordinal day_date = toordinal (Date 2024 6 1) + Z.of_nat i /\
        fromisoformat (strftime_ymd day_date) = Some day_date /\
        date_ltb day_date (Date 2024 6 4) = true /\
        (i = 0%nat -> strftime_ymd day_date = "2024-06-01").
Proof.
  apply (@itinerary_spans_trip (demo all_up) paris_form paris empty_world
           demo_itinerary
           [JObj [("day", JNum 1); ("date", JStr "1999-12-31");
                  ("title", JStr "Arrival")];
            JObj [("day", JNum 7); ("title", JStr "Museums")];
            JObj [("title", JStr "Departure");
                  ("day_of_week", JStr "Friday")]]).
  - by apply valid_dateb_valid.
  - by apply valid_dateb_valid.
  - reflexivity.
  - reflexivity.
  - reflexivity.
  - repeat constructor.
  - by vm_compute.
Defined.

Lemma main_on_submit_always_plans_paris :
  exists results w',
    @generate_all_parallel (demo all_down) shuffled paris empty_world
    = (Ok results, w') /\
    @main_on_submit (demo all_down) shuffled paris_form None empty_world
    = ({| banners := [];
          trip_plan := Some (trip_plan_of paris_form 3 "2024-06-01" results)
       |}, w') /\
    forall t,
      dict_get (tag t) (trip_plan_of paris_form 3 "2024-06-01" results)
      = results !! tag t.
Proof.
  apply (@main_on_submit_always_plans (demo all_down) shuffled paris_form
           None empty_world paris).
  reflexivity.
Defined.

Lemma main_on_submit_rejected_no_origin :
  exists message,
    @main_on_submit (demo all_up) in_order no_origin_form None empty_world
    = ({| banners := [ErrorBanner message]; trip_plan := None |},
       empty_world).
Proof.
  apply (@main_on_submit_rejected (demo all_up)). left. reflexivity.
Defined.

Lemma collect_keeps_going_after_error :
  exists results',
    collect [Raised (Exn "RuntimeError" "worker died");
             Ok ("budget", JObj [("total_per_person", JNum 1200)]);
             Raised (Exn "RuntimeError" "another one")]
      initial_results = Ok results' /\
    results' !! "errors"
    = Some (JList [JStr "worker died"; JStr "another one"]) /\
    results' !! "budget" = Some (JObj [("total_per_person", JNum 1200)]) /\
    results' !! "packing" = Some JNull.
Proof.
  destruct (collect_keeps_going
              [Raised (Exn "RuntimeError" "worker died");
               Ok ("budget", JObj [("total_per_person", JNum 1200)]);
               Raised (Exn "RuntimeError" "another one")]
              initial_results []) as (results' & Hrun & Herr & Hat & Hfiled).
  - reflexivity.
  - intros key value Hin.
    apply elem_of_cons in Hin as [Hin|Hin]; [discriminate Hin|].
    apply elem_of_cons in Hin as [Hin|Hin].
    + injection Hin as -> _. discriminate.
    + apply elem_of_cons in Hin as [Hin|Hin]; [discriminate Hin|].
      by apply elem_of_nil in Hin.
  - exists results'. split; [exact Hrun|]. split; [exact Herr|]. split.
    + apply Hfiled.
      * right. left.
      * intros value' Hin.
        apply elem_of_cons in Hin as [Hin|Hin]; [discriminate Hin|].
        apply elem_of_cons in Hin as [Hin|Hin]; [by injection Hin|].
        apply elem_of_cons in Hin as [Hin|Hin]; [discriminate Hin|].
        by apply elem_of_nil in Hin.
    + rewrite Hat by discriminate. reflexivity.
Defined.

(** ** Runs on the scripted collaborator *)

(** Three days from 2024-06-01: the entries are dated by position, over
    the date and the weekday the model wrote. *)
Example paris_itinerary :
  (@create_daily_itinerary (demo all_up) "Paris" "New York" 3 ["Culture"]
     "mid-range" "2024-06-01" empty_world).1
  = Ok (JList
          [JObj [("day", JNum 1); ("date", JStr "2024-06-01");
                 ("title", JStr "Arrival");
                 ("day_of_week", JStr "Saturday")];
           JObj [("day", JNum 7); ("title", JStr "Museums");
                 ("date", JStr "2024-06-02");
                 ("day_of_week", JStr "Sunday")];
           JObj [("title", JStr "Departure");
                 ("day_of_week", JStr "Monday");
                 ("date", JStr "2024-06-03")]]).
Proof. vm_compute. reflexivity. Qed.

(** Past the last day [datetime] knows, the loop raises and the whole
    itinerary is dropped. *)
Example itinerary_past_maxyear :
  let '(value, w) :=
    @create_daily_itinerary (demo all_up) "Paris" "New York" 3 ["Culture"]
      "mid-range" "9999-12-30" empty_world in
  (value, logged w)
  = (Ok (JList []), ["Itinerary error: date value out of range"]).
Proof. vm_compute. reflexivity. Qed.

(** Two calls for Rome, one request. *)
Example rome_twice :
  let '(first, w1) :=
    @get_destination_insights (demo all_up) "Rome" empty_world in
  let '(second, w2) := @get_destination_insights (demo all_up) "Rome" w1 in
  (first, second, length (issued w2))
  = (Ok (JObj [("description", JStr "City of light")]),
     Ok (JObj [("description", JStr "City of light")]), 1%nat).
Proof. vm_compute. reflexivity. Qed.

(** A failed call is tried again by the next one. *)
Example rome_down_twice :
  let '(first, w1) :=
    @get_destination_insights (demo all_down) "Rome" empty_world in
  let '(second, w2) := @get_destination_insights (demo all_down) "Rome" w1 in
  (first, second, length (issued w2), logged w2)
  = (Ok (JObj []), Ok (JObj []), 2%nat,
     ["Insights error: service unavailable";
      "Insights error: service unavailable"]).
Proof. vm_compute. reflexivity. Qed.

(** The budget call raises, the other three succeed. *)
Example paris_budget_down :
  match @generate_all_parallel (demo (only_down Budget)) shuffled paris
          empty_world with
  | (Ok results, w) =>
      (results !! "budget", results !! "errors", results !! "insights",
       results !! "packing", logged w)
  | (Raised _, _) => (None, None, None, None, [])
  end
  = (Some (JObj []), Some (JList []),
     Some (JObj [("description", JStr "City of light")]),
     Some (JObj [("documents", JList [JStr "Passport"])]),
     ["Budget error: service unavailable"]).
Proof. vm_compute. reflexivity. Qed.

(** Leap days and the ends of the range go through the ordinal and
    back. *)
Example ordinal_round_trips :
  map (fun d => _ord2ymd (toordinal d))
      [Date 1 1 1; Date 1900 2 28; Date 1900 3 1; Date 2000 2 29;
       Date 2024 2 29; Date 2024 12 31; Date 9999 12 31]
  = [Date 1 1 1; Date 1900 2 28; Date 1900 3 1; Date 2000 2 29;
     Date 2024 2 29; Date 2024 12 31; Date 9999 12 31].
Proof. vm_compute. reflexivity. Qed.
